(** * Outlook e-mail analysis dashboard: model of the normalizer, the filter
      engine and the feature/insight engine of
      [outlook-email-analysis-dashboard.py], with the properties of its
      specification.

    Conventions of the embedding.
    - A Python [str] is a list of characters.  The table is read with
      [encoding="ISO-8859-1"], so every character of a cell is one of the 256
      Latin-1 code points, which is what [ascii] holds.
    - A pandas object cell is [option str]; [None] is the missing value (NaN).
    - A float64 is [NaN] or an exact real number: rounding is not modelled.
    - Calls into pandas, [re] and [datetime] are given by the functions below
      that carry the name of the call; calls into TextBlob, Stanza,
      scikit-learn and wordcloud are parameters of the feature engine. *)

From Stdlib Require Import String Ascii ZArith List Bool Lia Arith.
From Stdlib Require Import Reals Lra Sorted Permutation.
Import ListNotations.

Set Implicit Arguments.

(* ------------------------------------------------------------------ *)
(** ** Characters and strings *)

Definition str := list ascii.
Definition cell := option str.

Definition lit (s : string) : str := list_ascii_of_string s.

Definition code (c : ascii) : N := N_of_ascii c.

Definition is_nl (c : ascii) : bool := (code c =? 10)%N.

(** [str.lower] and the case folding of [re.IGNORECASE] on Latin-1: the
    letters A-Z and the accented capitals U+00C0..U+00DE (the multiplication
    sign U+00D7 apart) move 32 code points up. *)
Definition lower (c : ascii) : ascii :=
  let n := code c in
  if ((65 <=? n) && (n <=? 90) || (192 <=? n) && (n <=? 222) && negb (n =? 215))%N
  then ascii_of_N (n + 32) else c.

Definition str_lower (s : str) : str := map lower s.

(** [str.isspace] on Latin-1. *)
Definition is_space (c : ascii) : bool :=
  let n := code c in
  ((9 <=? n) && (n <=? 13) || (28 <=? n) && (n <=? 32) || (n =? 133) || (n =? 160))%N.

Definition is_digit (c : ascii) : bool :=
  let n := code c in ((48 <=? n) && (n <=? 57))%N.

Definition is_alnum_ascii (c : ascii) : bool :=
  let n := code c in
  ((48 <=? n) && (n <=? 57) || (65 <=? n) && (n <=? 90) || (97 <=? n) && (n <=? 122))%N.

Fixpoint str_eqb (a b : str) : bool :=
  match a, b with
  | [], [] => true
  | x :: a', y :: b' => Ascii.eqb x y && str_eqb a' b'
  | _, _ => false
  end.

Fixpoint str_ltb (a b : str) : bool :=
  match a, b with
  | _, [] => false
  | [], _ :: _ => true
  | x :: a', y :: b' =>
      ((code x <? code y) || (code x =? code y) && str_ltb a' b')%N
  end.

Fixpoint dropwhile (p : ascii -> bool) (s : str) : str :=
  match s with
  | [] => []
  | c :: s' => if p c then dropwhile p s' else s
  end.

Definition lstrip (s : str) : str := dropwhile is_space s.
Definition rstrip (s : str) : str := rev (dropwhile is_space (rev s)).

(** [str.strip()] *)
Definition strip (s : str) : str := lstrip (rstrip s).

(** [k] matches at the start of [s], letters compared without case. *)
Fixpoint prefix_ci (k s : str) : bool :=
  match k, s with
  | [], _ => true
  | _ :: _, [] => false
  | a :: k', c :: s' => Ascii.eqb (lower a) (lower c) && prefix_ci k' s'
  end.

(** [k] occurs somewhere in [s], letters compared without case. *)
Fixpoint contains_ci (k s : str) : bool :=
  prefix_ci k s ||
  match s with
  | [] => false
  | _ :: s' => contains_ci k s'
  end.

Fixpoint prefix_of (k s : str) : bool :=
  match k, s with
  | [], _ => true
  | _ :: _, [] => false
  | a :: k', c :: s' => Ascii.eqb a c && prefix_of k' s'
  end.

(** [k in s] *)
Fixpoint contains (k s : str) : bool :=
  prefix_of k s ||
  match s with
  | [] => false
  | _ :: s' => contains k s'
  end.

(* ------------------------------------------------------------------ *)
(** ** Normalizer: body cleaning (lines 95-102) *)

Definition BODY_CLEANUP_KEYWORDS : list str :=
  [lit "kind regards"; lit "best regards"; lit "thanks"; lit "thank you";
   lit "sincerely"].

(** The alternation [(k1.*|k2.*|...)] at one position: the alternatives are
    tried in the order of the list, and the first keyword that matches there
    decides the match. *)
Fixpoint first_alt (ks : list str) (s : str) : option str :=
  match ks with
  | [] => None
  | k :: ks' => if prefix_ci k s then Some k else first_alt ks' s
  end.

Definition nonempty (k : str) : bool :=
  match k with [] => false | _ :: _ => true end.

(** [re.sub(pattern, "", text)] for the pattern of [clean_body], as one pass
    over the text.  [skip] counts the characters of the matched keyword that
    are still to be consumed (a keyword may hold any character, a line feed
    too); [dot] tells that the scan is inside the [.*] of a match, which
    consumes everything up to the next line feed and leaves the line feed.
    Outside a match, a search starts at the current character:
    - no alternative matches: the character is copied;
    - the first matching keyword is not empty: it is consumed, then [.*];
    - the first matching keyword is the empty one and the character is not a
      line feed: [.*] consumes the rest of the line;
    - the empty keyword at a line feed gives an empty match, after which the
      engine looks at the same position for a match that is not empty, and
      copies the line feed when there is none. *)
Fixpoint re_sub_scan (ks : list str) (skip : nat) (dot : bool) (s : str) : str :=
  match s with
  | [] => []
  | c :: s' =>
      match skip with
      | S n => re_sub_scan ks n true s'
      | O =>
          if dot && negb (is_nl c) then re_sub_scan ks 0 true s'
          else
            match first_alt ks s with
            | None => c :: re_sub_scan ks 0 false s'
            | Some (_ :: k') => re_sub_scan ks (length k') true s'
            | Some [] =>
                if negb (is_nl c) then re_sub_scan ks 0 true s'
                else
                  match first_alt (filter nonempty ks) s with
                  | Some (_ :: k') => re_sub_scan ks (length k') true s'
                  | _ => c :: re_sub_scan ks 0 false s'
                  end
            end
      end
  end.

Definition clean_body (text : str) (keywords_to_remove : list str) : str :=
  strip (re_sub_scan keywords_to_remove 0 false text).

(** No line feed in the keyword. *)
Definition nl_free (k : str) : bool := forallb (fun c => negb (is_nl c)) k.

(** Some keyword matches at the start of [s]. *)
Definition any_alt (ks : list str) (s : str) : bool :=
  existsb (fun k => prefix_ci k s) ks.

(** The scan read line by line, as it goes when no keyword holds a line feed:
    a line is copied up to the first place where a keyword matches, and the
    rest of the line is dropped. *)
Fixpoint scan_lines (ks : list str) (dot : bool) (s : str) : str :=
  match s with
  | [] => []
  | c :: s' =>
      if is_nl c then c :: scan_lines ks false s'
      else if dot || any_alt ks s then scan_lines ks true s'
      else c :: scan_lines ks false s'
  end.

(** No keyword matches at a character of [s] that is no line feed. *)
Fixpoint no_hit (ks : list str) (s : str) : Prop :=
  match s with
  | [] => True
  | c :: s' => (is_nl c = true \/ any_alt ks s = false) /\ no_hit ks s'
  end.

Definition starts_nl (s : str) : Prop :=
  match s with [] => True | c :: _ => is_nl c = true end.

(** The flags of [re_sub_scan]: for every character of the text, whether the
    substitution keeps it.  The scan is the same, case by case. *)
Fixpoint re_sub_keep (ks : list str) (skip : nat) (dot : bool) (s : str)
  : list bool :=
  match s with
  | [] => []
  | c :: s' =>
      match skip with
      | S n => false :: re_sub_keep ks n true s'
      | O =>
          if dot && negb (is_nl c) then false :: re_sub_keep ks 0 true s'
          else
            match first_alt ks s with
            | None => true :: re_sub_keep ks 0 false s'
            | Some (_ :: k') => false :: re_sub_keep ks (length k') true s'
            | Some [] =>
                if negb (is_nl c) then false :: re_sub_keep ks 0 true s'
                else
                  match first_alt (filter nonempty ks) s with
                  | Some (_ :: k') =>
                      false :: re_sub_keep ks (length k') true s'
                  | _ => true :: re_sub_keep ks 0 false s'
                  end
            end
      end
  end.

Fixpoint select (flags : list bool) (s : str) : str :=
  match flags, s with
  | b :: flags', c :: s' => if b then c :: select flags' s' else select flags' s'
  | _, _ => []
  end.

(** The flags of [scan_lines]. *)
Fixpoint keep_lines (ks : list str) (dot : bool) (s : str) : list bool :=
  match s with
  | [] => []
  | c :: s' =>
      if is_nl c then true :: keep_lines ks false s'
      else if dot || any_alt ks s then false :: keep_lines ks true s'
      else true :: keep_lines ks false s'
  end.

(** The substitution removes the character at position [j] of the text. *)
Definition removed (ks : list str) (text : str) (j : nat) : Prop :=
  nth j (re_sub_keep ks 0 false text) true = false.

(* ------------------------------------------------------------------ *)
(** ** Normalizer: dates (lines 85-92) *)

Record date := mkDate { year : Z; month : Z; day : Z }.

Record datetime := mkDateTime {
  dt_date : date; hour : Z; minute : Z; second : Z }.

Definition date_eqb (a b : date) : bool :=
  ((year a =? year b) && (month a =? month b) && (day a =? day b))%Z.

(** Order of [datetime.date]: by year, then month, then day. *)
Definition date_ltb (a b : date) : bool :=
  ((year a <? year b)
   || (year a =? year b)
      && ((month a <? month b) || (month a =? month b) && (day a <? day b)))%Z.

Definition date_leb (a b : date) : bool := date_ltb a b || date_eqb a b.

Definition is_leap (y : Z) : bool :=
  ((y mod 4 =? 0) && (negb (y mod 100 =? 0) || (y mod 400 =? 0)))%Z.

Definition days_in_month (y m : Z) : Z :=
  match m with
  | 2 => if is_leap y then 29 else 28
  | 4 | 6 | 9 | 11 => 30
  | _ => 31
  end%Z.

Definition days_before_month (y m : Z) : Z :=
  (match m with
   | 1 => 0 | 2 => 31 | 3 => 59 | 4 => 90 | 5 => 120 | 6 => 151 | 7 => 181
   | 8 => 212 | 9 => 243 | 10 => 273 | 11 => 304 | _ => 334
   end + (if (2 <? m) && is_leap y then 1 else 0))%Z.

Definition days_before_year (y : Z) : Z :=
  ((y - 1) * 365 + (y - 1) / 4 - (y - 1) / 100 + (y - 1) / 400)%Z.

(** [date.toordinal()]: 1 is the first of January of year 1. *)
Definition toordinal (d : date) : Z :=
  (days_before_year (year d) + days_before_month (year d) (month d) + day d)%Z.

(** [date.weekday()]: 0 is Monday. *)
Definition weekday (d : date) : Z := ((toordinal d + 6) mod 7)%Z.

Definition WEEKDAYS : list str :=
  [lit "Monday"; lit "Tuesday"; lit "Wednesday"; lit "Thursday"; lit "Friday";
   lit "Saturday"; lit "Sunday"].

(** [dt.day_name()] *)
Definition day_name (d : date) : str :=
  nth (Z.to_nat (weekday d)) WEEKDAYS [].

Definition digit_char (n : Z) : ascii := ascii_of_N (Z.to_N (48 + n mod 10)).

Definition pad2 (n : Z) : str := [digit_char (n / 10); digit_char n].

Definition pad4 (n : Z) : str :=
  [digit_char (n / 1000); digit_char (n / 100); digit_char (n / 10); digit_char n].

(** [dt.to_period('M').astype(str)] *)
Definition month_label (d : date) : str :=
  pad4 (year d) ++ lit "-" ++ pad2 (month d).

(** Seconds from 1970-01-01 00:00:00; a [Timestamp] holds nanoseconds in 64
    bits, which bounds the seconds as below (years 1677 to 2262). *)
Definition epoch_seconds (t : datetime) : Z :=
  ((toordinal (dt_date t) - 719163) * 86400
   + hour t * 3600 + minute t * 60 + second t)%Z.

Definition in_timestamp_bounds (t : datetime) : bool :=
  ((-9223372036 <=? epoch_seconds t) && (epoch_seconds t <=? 9223372036))%Z.

(** *** Parsing with the format ["%d/%m/%Y %I:%M:%S %p"], [errors='coerce'] *)

Definition digit_val (c : ascii) : Z := (Z.of_N (code c) - 48)%Z.

(** A numeric field of one or two digits, taken as long as possible. *)
Definition field2 (s : str) : option (Z * str) :=
  match s with
  | a :: b :: s' =>
      if is_digit a then
        if is_digit b then Some (10 * digit_val a + digit_val b, s')%Z
        else Some (digit_val a, b :: s')
      else None
  | [a] => if is_digit a then Some (digit_val a, []) else None
  | [] => None
  end.

Definition in_range (lo hi : Z) (r : option (Z * str)) : option (Z * str) :=
  match r with
  | Some (v, s') => if ((lo <=? v) && (v <=? hi))%Z then r else None
  | None => None
  end.

(** [%d]: 1 to 31; a single digit may follow one space. *)
Definition field_d (s : str) : option (Z * str) :=
  match s with
  | " "%char :: c :: s' =>
      if is_digit c
      then match s' with
           | c' :: _ => if is_digit c' then None
                        else in_range 1 9 (Some (digit_val c, s'))
           | [] => in_range 1 9 (Some (digit_val c, s'))
           end
      else None
  | _ => in_range 1 31 (field2 s)
  end.

(** [%m] and [%I]: 1 to 12. *)
Definition field_12 (s : str) : option (Z * str) := in_range 1 12 (field2 s).

(** [%M] and [%S]: 0 to 59 (a second of 60 or 61 is read by the format but is
    no valid time, and the row is dropped all the same). *)
Definition field_59 (s : str) : option (Z * str) := in_range 0 59 (field2 s).

(** [%Y]: four digits. *)
Definition field_Y (s : str) : option (Z * str) :=
  match s with
  | a :: b :: c :: d :: s' =>
      if is_digit a && is_digit b && is_digit c && is_digit d
      then Some (1000 * digit_val a + 100 * digit_val b
                 + 10 * digit_val c + digit_val d, s')%Z
      else None
  | _ => None
  end.

(** [%p]: AM or PM in either case; [true] is PM. *)
Definition field_p (s : str) : option (bool * str) :=
  match s with
  | a :: m :: s' =>
      if Ascii.eqb (lower m) "m"%char then
        if Ascii.eqb (lower a) "a"%char then Some (false, s')
        else if Ascii.eqb (lower a) "p"%char then Some (true, s')
        else None
      else None
  | _ => None
  end.

Definition expect (c : ascii) (s : str) : option str :=
  match s with
  | c' :: s' => if Ascii.eqb c c' then Some s' else None
  | [] => None
  end.

(** White space of the format stands for one or more white-space characters. *)
Definition spaces1 (s : str) : option str :=
  match s with
  | c :: s' => if is_space c then Some (dropwhile is_space s') else None
  | [] => None
  end.

Definition hour24 (h12 : Z) (pm : bool) : Z :=
  (if pm then (if h12 =? 12 then 12 else h12 + 12)
   else (if h12 =? 12 then 0 else h12))%Z.

Definition obind {A B} (x : option A) (f : A -> option B) : option B :=
  match x with Some a => f a | None => None end.

Notation "' p <- x ;; k" := (obind x (fun p => k))
  (at level 61, p pattern, x at next level, right associativity).
Notation "v <- x ;; k" := (obind x (fun v => k))
  (at level 61, x at next level, right associativity).

(** [pd.to_datetime(text, format="%d/%m/%Y %I:%M:%S %p", errors='coerce')] on
    one cell; [None] is [NaT]. *)
Definition to_datetime (text : str) : option datetime :=
  '(d, s) <- field_d text ;;
  s <- expect "/" s ;;
  '(m, s) <- field_12 s ;;
  s <- expect "/" s ;;
  '(y, s) <- field_Y s ;;
  s <- spaces1 s ;;
  '(i, s) <- field_12 s ;;
  s <- expect ":" s ;;
  '(mi, s) <- field_59 s ;;
  s <- expect ":" s ;;
  '(se, s) <- field_59 s ;;
  s <- spaces1 s ;;
  '(pm, s) <- field_p s ;;
  match s with
  | [] =>
      let t := mkDateTime (mkDate y m d) (hour24 i pm) mi se in
      if ((1 <=? y) && (d <=? days_in_month y m))%Z && in_timestamp_bounds t
      then Some t else None
  | _ :: _ => None
  end.

(* ------------------------------------------------------------------ *)
(** ** Tables *)

(** A row of the file as [read_csv] gives it: the four required columns. *)
Record RawRow := mkRaw {
  raw_Subject : cell; raw_Sender : cell; raw_Date : cell; raw_Body : cell }.

(** A row of the normalized table [df]. *)
Record Row := mkRow {
  Subject : cell;
  Sender : cell;
  Date : datetime;
  Body : cell;
  DateOnly : date;
  Hour : Z;
  Weekday : str;
  Month : str }.

Definition table := list Row.

(** Lines 81-105 on one row: [dropna] on the required columns, the date parsed
    and rows with [NaT] dropped, the calendar columns derived, the body
    cleaned. *)
Definition normalize_row (r : RawRow) : option Row :=
  match raw_Subject r, raw_Sender r, raw_Date r, raw_Body r with
  | Some su, Some se, Some da, Some bo =>
      match to_datetime da with
      | Some t =>
          Some {| Subject := Some su;
                  Sender := Some se;
                  Date := t;
                  Body := Some (clean_body bo BODY_CLEANUP_KEYWORDS);
                  DateOnly := dt_date t;
                  Hour := hour t;
                  Weekday := day_name (dt_date t);
                  Month := month_label (dt_date t) |}
      | None => None
      end
  | _, _, _, _ => None
  end.

Fixpoint normalize (raw : list RawRow) : table :=
  match raw with
  | [] => []
  | r :: raw' =>
      match normalize_row r with
      | Some row => row :: normalize raw'
      | None => normalize raw'
      end
  end.

(* ------------------------------------------------------------------ *)
(** ** Filter engine (lines 112-139) *)

(** The part of the pattern language of [re] that is modelled: a sequence of
    literal characters and of [.]; a backslash before a character that is no
    ASCII letter or digit makes it literal. *)
Inductive atom := Lit (c : ascii) | AnyChar.

Definition regex := list atom.

(** The characters with a meaning of their own in a pattern. *)
Definition is_meta (c : ascii) : bool :=
  existsb (Ascii.eqb c)
    ["."; "^"; "$"; "*"; "+"; "?"; "{"; "}"; "["; "]"; "\"; "|"; "("; ")"]%char.

(** [re.compile(pat, re.IGNORECASE)].  [None] stands for a pattern outside the
    modelled part: Python raises [re.error] on it (["("], ["c++"], a trailing
    backslash) or builds an operator that is not modelled here. *)
Fixpoint re_compile (pat : str) : option regex :=
  match pat with
  | [] => Some []
  | c :: pat' =>
      if Ascii.eqb c "\"%char then
        match pat' with
        | e :: pat'' =>
            if is_alnum_ascii e then None
            else option_map (cons (Lit e)) (re_compile pat'')
        | [] => None
        end
      else if Ascii.eqb c "."%char then option_map (cons AnyChar) (re_compile pat')
      else if is_meta c then None
      else option_map (cons (Lit c)) (re_compile pat')
  end.

Definition atom_match (a : atom) (c : ascii) : bool :=
  match a with
  | Lit p => Ascii.eqb (lower p) (lower c)
  | AnyChar => negb (is_nl c)
  end.

Fixpoint match_here (r : regex) (s : str) : bool :=
  match r, s with
  | [], _ => true
  | _ :: _, [] => false
  | a :: r', c :: s' => atom_match a c && match_here r' s'
  end.

(** [pattern.search(s) is not None] *)
Fixpoint re_search (r : regex) (s : str) : bool :=
  match_here r s ||
  match s with
  | [] => false
  | _ :: s' => re_search r s'
  end.

(** [Series.str.contains(pat, case=False, na=False)] on one cell, the pattern
    compiled. *)
Definition str_contains (pat : regex) (x : cell) : bool :=
  match x with
  | Some s => re_search pat s
  | None => false
  end.

(** [Series.isin(values)] on one cell. *)
Definition isin (x : cell) (values : list str) : bool :=
  match x with
  | Some s => existsb (str_eqb s) values
  | None => false
  end.

(** [df['DateOnly'].min()] and [.max()]; [None] on the empty table. *)
Fixpoint min_date (t : table) : option date :=
  match t with
  | [] => None
  | r :: t' =>
      match min_date t' with
      | None => Some (DateOnly r)
      | Some m => Some (if date_ltb (DateOnly r) m then DateOnly r else m)
      end
  end.

Fixpoint max_date (t : table) : option date :=
  match t with
  | [] => None
  | r :: t' =>
      match max_date t' with
      | None => Some (DateOnly r)
      | Some m => Some (if date_ltb m (DateOnly r) then DateOnly r else m)
      end
  end.

(** The values of the sidebar widgets. *)
Record FilterSpec := mkFilterSpec {
  start_date : date;
  end_date : date;
  sender_filter : list str;
  keyword : str;
  custom_stopwords_input : str }.

Definition in_date_range (w : FilterSpec) (r : Row) : bool :=
  date_leb (start_date w) (DateOnly r) && date_leb (DateOnly r) (end_date w).

Definition keyword_mask (pat : regex) (r : Row) : bool :=
  str_contains pat (Subject r) || str_contains pat (Body r).

(** The two tables the script holds once line 139 is passed. *)
Record Session := mkSession { df : table; filtered_df : table }.

(** Lines 131-139.  Each indexing [frame[mask]] builds a new frame; [df] is
    read and never assigned.  [None]: the keyword is a pattern outside the
    modelled part. *)
Definition apply_filters (df0 : table) (w : FilterSpec) : option Session :=
  let by_date := filter (in_date_range w) df0 in
  let by_sender :=
    match sender_filter w with
    | [] => by_date
    | _ :: _ => filter (fun r => isin (Sender r) (sender_filter w)) by_date
    end in
  match keyword w with
  | [] => Some (mkSession df0 by_sender)
  | _ :: _ =>
      match re_compile (keyword w) with
      | Some pat => Some (mkSession df0 (filter (keyword_mask pat) by_sender))
      | None => None
      end
  end.

(* ------------------------------------------------------------------ *)
(** ** Series: grouping and statistics *)

Section GroupBy.
Variable K : Type.
Variables eqb ltb : K -> K -> bool.

Fixpoint insert_sorted (k : K) (l : list K) : list K :=
  match l with
  | [] => [k]
  | x :: l' => if ltb k x then k :: l else x :: insert_sorted k l'
  end.

Fixpoint sort_keys (l : list K) : list K :=
  match l with
  | [] => []
  | k :: l' => insert_sorted k (sort_keys l')
  end.

Fixpoint distinct (l : list K) : list K :=
  match l with
  | [] => []
  | k :: l' => if existsb (eqb k) l' then distinct l' else k :: distinct l'
  end.

Definition count_key (k : K) (l : list K) : Z :=
  Z.of_nat (length (filter (eqb k) l)).

(** [groupby(key).size()]: one entry per value of the key, in the order of
    the keys, with the number of rows that have it. *)
Definition groupby_size (keys : list K) : list (K * Z) :=
  map (fun k => (k, count_key k keys)) (sort_keys (distinct keys)).

Fixpoint lookup (k : K) (s : list (K * Z)) : option Z :=
  match s with
  | [] => None
  | (k', v) :: s' => if eqb k k' then Some v else lookup k s'
  end.

End GroupBy.

(** A float64: [NaN] or a number. *)
Inductive f64 := NaN | Fin (x : R).

Definition fadd (a b : f64) : f64 :=
  match a, b with Fin x, Fin y => Fin (x + y) | _, _ => NaN end.

Definition fmul (a b : f64) : f64 :=
  match a, b with Fin x, Fin y => Fin (x * y) | _, _ => NaN end.

(** [a < b]; a comparison with [NaN] is false. *)
Definition flt (a b : f64) : bool :=
  match a, b with
  | Fin x, Fin y => if Rlt_dec x y then true else false
  | _, _ => false
  end.

Definition Rsum (xs : list R) : R := fold_right Rplus 0%R xs.

(** [Series.mean()]: [NaN] on the empty series. *)
Definition Series_mean (xs : list R) : f64 :=
  match xs with
  | [] => NaN
  | _ :: _ => Fin (Rsum xs / INR (length xs))
  end.

(** [Series.std()], with pandas' default [ddof=1]: the squared deviations
    from the mean are summed and divided by [count - 1]; [NaN] with fewer
    than two values. *)
Definition Series_std (xs : list R) : f64 :=
  match Series_mean xs with
  | NaN => NaN
  | Fin avg =>
      if (length xs <=? 1)%nat then NaN
      else Fin (sqrt (Rsum (map (fun x => (avg - x) * (avg - x)) xs)
                      / (INR (length xs) - 1)))%R
  end.

(* ------------------------------------------------------------------ *)
(** ** Burst detection (lines 196-201 and 344-348) *)

Definition daily_counts (t : table) : list (date * Z) :=
  groupby_size date_eqb date_ltb (map DateOnly t).

Definition counts_of (daily : list (date * Z)) : list R :=
  map (fun dc => IZR (snd dc)) daily.

Definition mean_count (daily : list (date * Z)) : f64 :=
  Series_mean (counts_of daily).

Definition std_count (daily : list (date * Z)) : f64 :=
  Series_std (counts_of daily).

Definition threshold (daily : list (date * Z)) : f64 :=
  fadd (mean_count daily) (fmul (Fin 2) (std_count daily)).

(** [daily_counts[daily_counts > threshold]] *)
Definition bursts_of (daily : list (date * Z)) : list (date * Z) :=
  filter (fun dc => flt (threshold daily) (Fin (IZR (snd dc)))) daily.

Definition burst_days (t : table) : list (date * Z) :=
  bursts_of (daily_counts t).

(** The same selection decided on integers: with [n] days of sum [S] and sum
    of squares [Q], [c > mean + 2 std] is [n c > S] together with
    [(n - 1) (n c - S)^2 > 4 n (n Q - S^2)]. *)
Definition Zsum (xs : list Z) : Z := fold_right Z.add 0%Z xs.

Definition burst_test (n S Q c : Z) : bool :=
  ((1 <? n) && (S <? n * c)
   && (4 * n * (n * Q - S * S) <? (n - 1) * ((n * c - S) * (n * c - S))))%Z.

Definition bursts_exact (daily : list (date * Z)) : list (date * Z) :=
  let cs := map snd daily in
  let n := Z.of_nat (length cs) in
  let S := Zsum cs in
  let Q := Zsum (map (fun x => x * x)%Z cs) in
  filter (fun dc => burst_test n S Q (snd dc)) daily.

(* ------------------------------------------------------------------ *)
(** ** Heat map (lines 163-165) *)

Record Frame (V : Type) := mkFrame {
  index : list str;
  columns : list Z;
  values : list (list V) }.

Definition wh_eqb (a b : str * Z) : bool :=
  str_eqb (fst a) (fst b) && (snd a =? snd b)%Z.

Definition wh_ltb (a b : str * Z) : bool :=
  str_ltb (fst a) (fst b) || str_eqb (fst a) (fst b) && (snd a <? snd b)%Z.

(** [.unstack(fill_value=...)] of a series indexed by (weekday, hour): the
    weekdays and the hours that occur label the rows and the columns, and a
    pair that is no entry of the series gets [fill_value]. *)
Definition unstack (fill_value : Z) (s : list ((str * Z) * Z)) : Frame Z :=
  let idx := sort_keys str_ltb (distinct str_eqb (map (fun e => fst (fst e)) s)) in
  let cols := sort_keys Z.ltb (distinct Z.eqb (map (fun e => snd (fst e)) s)) in
  mkFrame idx cols
    (map (fun w =>
            map (fun h => match lookup wh_eqb (w, h) s with
                          | Some n => n
                          | None => fill_value
                          end) cols) idx).

Fixpoint find_row (V : Type) (w : str) (idx : list str) (rows : list (list V))
  : option (list V) :=
  match idx, rows with
  | l :: idx', row :: rows' =>
      if str_eqb w l then Some row else find_row w idx' rows'
  | _, _ => None
  end.

(** [.reindex(labels)], without [fill_value]: a label that the frame has not
    gets a row of missing values; a cell is then [None]. *)
Definition reindex (labels : list str) (f : Frame Z) : Frame (option Z) :=
  mkFrame labels (columns f)
    (map (fun l => match find_row l (index f) (values f) with
                   | Some row => map Some row
                   | None => map (fun _ => None) (columns f)
                   end) labels).

Definition heatmap_data (t : table) : Frame (option Z) :=
  reindex WEEKDAYS
    (unstack 0 (groupby_size wh_eqb wh_ltb (map (fun r => (Weekday r, Hour r)) t))).

(* ------------------------------------------------------------------ *)
(** ** Counting and ranking *)

Section Counter.
Variable K : Type.
Variable eqb : K -> K -> bool.

(** [Counter.update] with one key: a new key goes to the end. *)
Fixpoint counter_add (k : K) (cnt : list (K * Z)) : list (K * Z) :=
  match cnt with
  | [] => [(k, 1%Z)]
  | (k', n) :: cnt' =>
      if eqb k k' then (k', (n + 1)%Z) :: cnt' else (k', n) :: counter_add k cnt'
  end.

Definition counter_update (cnt : list (K * Z)) (ks : list K) : list (K * Z) :=
  fold_left (fun c k => counter_add k c) ks cnt.

Fixpoint insert_desc (e : K * Z) (l : list (K * Z)) : list (K * Z) :=
  match l with
  | [] => [e]
  | x :: l' => if (snd x <=? snd e)%Z then e :: l else x :: insert_desc e l'
  end.

(** Sorted by count, largest first, equal counts in the order they had. *)
Definition sort_desc (l : list (K * Z)) : list (K * Z) :=
  fold_right insert_desc [] l.

(** [Counter.most_common(n)], [value_counts().head(n)] *)
Definition most_common (n : nat) (cnt : list (K * Z)) : list (K * Z) :=
  firstn n (sort_desc cnt).

End Counter.

(** In a ranking, [a] may stand before [b]: its count is not the smaller. *)
Definition count_ge (K : Type) (a b : K * Z) : Prop := (snd b <= snd a)%Z.

Fixpoint dropna (xs : list cell) : list str :=
  match xs with
  | [] => []
  | Some s :: xs' => s :: dropna xs'
  | None :: xs' => dropna xs'
  end.

(** [str(x)] of a cell, as [astype(str)] and [TextBlob(str(x))] take it. *)
Definition cell_str (x : cell) : str :=
  match x with Some s => s | None => lit "nan" end.

(** [fillna("")] *)
Definition fillna_empty (x : cell) : str :=
  match x with Some s => s | None => [] end.

Fixpoint join (sep : str) (parts : list str) : str :=
  match parts with
  | [] => []
  | [p] => p
  | p :: parts' => p ++ sep ++ join sep parts'
  end.

(** [text.split()]: the maximal runs of characters that are no white space. *)
Fixpoint split_ws (s : str) : list str :=
  match s with
  | [] => []
  | c :: s' =>
      if is_space c then split_ws s'
      else match s' with
           | [] => [[c]]
           | c' :: _ =>
               if is_space c' then [c] :: split_ws s'
               else match split_ws s' with
                    | w :: ws => (c :: w) :: ws
                    | [] => [[c]]
                    end
           end
  end.

(** [text.split(',')] *)
Fixpoint split_comma (s : str) : list str :=
  match s with
  | [] => [[]]
  | c :: s' =>
      if Ascii.eqb c ","%char then [] :: split_comma s'
      else match split_comma s' with
           | w :: ws => (c :: w) :: ws
           | [] => [[c]]
           end
  end.

(** Lines 126-127: the stop words of the user, joined to the built-in ones. *)
Definition ALL_STOPWORDS (STOPWORDS : list str) (w : FilterSpec) : list str :=
  STOPWORDS
  ++ map (fun word => str_lower (strip word))
       (filter (fun word => nonempty (strip word))
          (split_comma (custom_stopwords_input w))).

(** Lines 213-217. *)
Definition tokenize (stopwords : list str) (text : str) : list str :=
  let text := filter (fun c => is_alnum_ascii c || is_space c) (str_lower text) in
  filter (fun word => (2 <? length word)%nat
                      && negb (existsb (str_eqb word) stopwords))
    (split_ws text).

(** A digit or one of the letters a to z. *)
Definition is_lower_alnum (c : ascii) : bool :=
  let n := code c in
  ((48 <=? n) && (n <=? 57) || (97 <=? n) && (n <=? 122))%N.

(* ------------------------------------------------------------------ *)
(** ** Feature and insight engine (lines 142-447) *)

Inductive exn := ValueError | TypeError.

Inductive result (A : Type) := Ok (a : A) | Raise (e : exn).
Arguments Raise {A} e.

Definition rbind {A B} (x : result A) (f : A -> result B) : result B :=
  match x with Ok a => f a | Raise e => Raise e end.

Notation "v <~ x ;; k" := (rbind x (fun v => k))
  (at level 61, x at next level, right associativity).

(** What an expander shows: the message "No data for selected filters." or
    the result of the feature. *)
Inductive display (A : Type) := NoData | Shown (a : A).
Arguments NoData {A}.

(** [" ".join(...)] over cells: a missing value is no string. *)
Fixpoint join_cells (xs : list cell) : result (list str) :=
  match xs with
  | [] => Ok []
  | Some s :: xs' => parts <~ join_cells xs' ;; Ok (s :: parts)
  | None :: _ => Raise TypeError
  end.

Inductive sentiment_note := SlightlyPositive | LeansNegative | MostlyNeutral.

Inductive anomaly_note := EmailBursts | LowPoliteness | NegativeSentiment.

Record InsightSummary := mkInsight {
  total_analyzed : nat;
  highly_positive : nat;
  highly_negative : nat;
  insight_bursts : list (date * Z);
  avg_polarity : f64;
  sentiment_dynamics : sentiment_note;
  polite_ratio : f64;
  high_politeness : bool;
  anomaly : bool;
  anomaly_notes : list anomaly_note }.

Definition polite_phrases_for_detection : list str :=
  [lit "kind regards"; lit "best regards"; lit "thank you"; lit "thanks";
   lit "sincerely"; lit "please"; lit "appreciate"].

(** Line 426 on one cell: the body in lower case holds one of the phrases. *)
Definition is_polite (x : cell) : bool :=
  match x with
  | Some s => existsb (fun p => contains p (str_lower s)) polite_phrases_for_detection
  | None => false
  end.

Definition polite_count (t : table) : nat :=
  length (filter (fun r => is_polite (Body r)) t).

(** Line 427. *)
Definition polite_ratio_of (t : table) : f64 :=
  if (0 <? length t)%nat then Fin (INR (polite_count t) / INR (length t)) else Fin 0.

(** Lines 317-447, for a table that is not empty and its column [Polarity].
    The rankings of senders, the peak hour and weekday and the investigative
    terms are bullets of their own; no other field depends on them and they
    are left out. *)
Definition insight_summary (t : table) (Polarity : list R) : InsightSummary :=
  let bursts := burst_days t in
  let avg := Series_mean Polarity in
  let ratio := polite_ratio_of t in
  let no_bursts := match bursts with [] => true | _ :: _ => false end in
  {| total_analyzed := length t;
     highly_positive :=
       length (filter (fun p => flt (Fin (5 / 10)) (Fin p)) Polarity);
     highly_negative :=
       length (filter (fun p => flt (Fin p) (Fin (- (5 / 10)))) Polarity);
     insight_bursts := bursts;
     avg_polarity := avg;
     sentiment_dynamics :=
       if flt (Fin (1 / 10)) avg then SlightlyPositive
       else if flt avg (Fin (- (1 / 10))) then LeansNegative
       else MostlyNeutral;
     polite_ratio := ratio;
     high_politeness := flt (Fin (4 / 10)) ratio;
     anomaly :=
       negb no_bursts || flt ratio (Fin (2 / 10)) || flt avg (Fin (- (1 / 10)));
     anomaly_notes :=
       (if negb no_bursts then [EmailBursts] else [])
       ++ (if flt ratio (Fin (2 / 10)) then [LowPoliteness] else [])
       ++ (if flt avg (Fin (- (1 / 10))) then [NegativeSentiment] else []) |}.

Section Engine.

(** The collaborators of the engine. *)
Variable STOPWORDS : list str.                (* wordcloud.STOPWORDS *)
Variable polarity : str -> R.                 (* TextBlob(text).sentiment.polarity *)
Variable image : Type.
Variable wordcloud_generate : list str -> str -> result image.
(** [CountVectorizer(ngram_range=(2, 2), stop_words=...)] fitted on the
    subjects, as the list [words_freq]; it raises on an empty vocabulary. *)
Variable bigram_counts : list str -> list str -> result (list (str * Z)).
Variable sample : nat -> list cell -> list cell.     (* Series.sample(n) *)
Variable nlp_entities : str -> list (str * str).     (* the Stanza pipeline *)

Record Dashboard := mkDashboard {
  total_emails : nat;
  unique_senders : nat;
  date_range : option (date * date);
  frequency : display (list date);
  heatmap : display (Frame (option Z));
  monthly_counts : display (list (str * Z));
  top_senders : display (list (str * Z));
  bursts : display (list (date * Z));
  common_words : display (list (str * Z));
  sorted_bigrams : display (list (str * Z));
  word_cloud : display image;
  entities : display (list (str * str * Z));
  sentiment : display (list R);
  insights : display InsightSummary }.

Definition is_empty (t : table) : bool :=
  match t with [] => true | _ :: _ => false end.

(** An expander: the feature when the table is not empty. *)
Definition expander {A} (t : table) (feature : result A) : result (display A) :=
  if is_empty t then Ok NoData
  else a <~ feature ;; Ok (Shown a).

(** The metric "Date Range"; [None] is the text "N/A". *)
Definition metric_date_range (t : table) : option (date * date) :=
  if is_empty t then None
  else match min_date t, max_date t with
       | Some lo, Some hi => Some (lo, hi)
       | _, _ => None
       end.

Definition ent_eqb (a b : str * str) : bool :=
  str_eqb (fst a) (fst b) && str_eqb (snd a) (snd b).

Definition Polarity_column (t : table) : list R :=
  map (fun r => polarity (cell_str (Body r))) t.

(** The script from line 142 on, run on the filtered table; an exception of
    a collaborator ends the run. *)
Definition dashboard (w : FilterSpec) (t : table) : result Dashboard :=
  let stop := ALL_STOPWORDS STOPWORDS w in
  freq <~ expander t (Ok (map DateOnly t)) ;;
  heat <~ expander t (Ok (heatmap_data t)) ;;
  monthly <~ expander t (Ok (groupby_size str_eqb str_ltb (map Month t))) ;;
  top <~ expander t
    (Ok (most_common 20 (counter_update str_eqb [] (dropna (map Sender t))))) ;;
  burst <~ expander t (Ok (sort_desc (burst_days t))) ;;
  words <~ expander t
    (Ok (most_common 20
           (counter_update str_eqb []
              (flat_map (tokenize stop) (dropna (map Subject t)))))) ;;
  bigr <~ expander t
    (words_freq <~ bigram_counts stop (map (fun r => fillna_empty (Subject r)) t) ;;
     Ok (firstn 20 (sort_desc words_freq))) ;;
  cloud <~ expander t
    (wordcloud_generate stop (join (lit " ") (map (fun r => cell_str (Body r)) t))) ;;
  ents <~ expander t
    (parts <~ join_cells (sample (Nat.min 50 (length t)) (map Body t)) ;;
     Ok (most_common 20
           (counter_update ent_eqb [] (nlp_entities (join (lit " ") parts))))) ;;
  senti <~ expander t (Ok (Polarity_column t)) ;;
  summary <~ expander t (Ok (insight_summary t (Polarity_column t))) ;;
  Ok {| total_emails := length t;
        unique_senders := length (distinct str_eqb (dropna (map Sender t)));
        date_range := metric_date_range t;
        frequency := freq;
        heatmap := heat;
        monthly_counts := monthly;
        top_senders := top;
        bursts := burst;
        common_words := words;
        sorted_bigrams := bigr;
        word_cloud := cloud;
        entities := ents;
        sentiment := senti;
        insights := summary |}.

End Engine.

(* ------------------------------------------------------------------ *)
(** ** The installer ([install_dependencies.py]) *)

(** The exceptions the script can meet; all of them are caught by
    [except Exception]. *)
Inductive py_exn :=
  CalledProcessError | OSError | ImportError | NameError | RuntimeError.

Inductive message :=
| Starting
| SuccessfullyInstalled (package : string)
| FailedToInstall (package : string)
| NumpyFailed
| CouldNotInstall (package : string)
| AttemptCorpora
| CorporaDownloaded
| CorporaError
| AttemptStanza
| StanzaExists
| StanzaReady
| StanzaError
| AllComplete
| YouCanNowRun
| RunCommand (windows : bool).

(** What the script does to the world, in order. *)
Inductive event :=
| Pip (package : string)          (* check_call([python, "-m", "pip", "install", package]) *)
| Print (m : message)
| DownloadCorpora                 (* tb_download.download_all() *)
| StanzaDownload.                 (* stanza.download('en') *)

(** What the world answers: [None] is a call that returns, [Some e] one that
    raises [e]. *)
Record World := mkWorld {
  check_call : string -> option py_exn;
  import_textblob : option py_exn;
  download_all : option py_exn;
  import_stanza : option py_exn;
  model_exists : bool;
  stanza_download : option py_exn;
  platform_system : string }.

(** A run: the events so far, and a value or the exception that ended it. *)
Inductive outcome (A : Type) := Done (a : A) | Raised (e : py_exn).
Arguments Raised {A} e.

Definition proc (A : Type) : Type := list event * outcome A.

Definition emit (e : event) : proc unit := ([e], Done tt).

Definition call (e : event) (answer : option py_exn) : proc unit :=
  match answer with
  | None => ([e], Done tt)
  | Some x => ([e], Raised x)
  end.

Definition seq_proc {A B} (m : proc A) (k : proc B) : proc B :=
  match m with
  | (ev, Done _) => (ev ++ fst k, snd k)
  | (ev, Raised e) => (ev, Raised e)
  end.

Notation "m ;;; k" := (seq_proc m k) (at level 62, right associativity).

(** [try: body except <caught> as e: handler] *)
Definition try_except {A} (body : proc A) (caught : py_exn -> bool)
  (handler : proc A) : proc A :=
  match body with
  | (ev, Done a) => (ev, Done a)
  | (ev, Raised e) =>
      if caught e then (ev ++ fst handler, snd handler) else (ev, Raised e)
  end.

Definition any_exception (e : py_exn) : bool := true.

Definition is_called_process_error (e : py_exn) : bool :=
  match e with CalledProcessError => true | _ => false end.

(** Lines 5-14: the failure of pip is reported and raised again. *)
Definition install (w : World) (package : string) : proc unit :=
  try_except
    (call (Pip package) (check_call w package) ;;;
     emit (Print (SuccessfullyInstalled package)))
    is_called_process_error
    (emit (Print (FailedToInstall package)) ;;; ([], Raised CalledProcessError)).

Definition packages : list string :=
  ["streamlit"; "pandas"; "matplotlib"; "seaborn"; "wordcloud"; "textblob";
   "stanza"; "plotly"; "scikit-learn"; "tqdm"; "nltk"]%string.

(** The names the module binds at its top: lines 1-3. *)
Definition module_imports : list string :=
  ["subprocess"; "sys"; "platform"]%string.

(** Reading a global name: [NameError] when the module does not bind it. *)
Definition global_name (name : string) : option py_exn :=
  if existsb (String.eqb name) module_imports then None else Some NameError.

Fixpoint for_each (ps : list string) (body : string -> proc unit) : proc unit :=
  match ps with
  | [] => ([], Done tt)
  | p :: ps' => body p ;;; for_each ps' body
  end.

(** An import, or the reading of a name: no event, but it may raise. *)
Definition attempt (answer : option py_exn) : proc unit :=
  match answer with
  | None => ([], Done tt)
  | Some x => ([], Raised x)
  end.

(** Lines 16-80. *)
Definition main (w : World) : proc unit :=
  emit (Print Starting) ;;;
  try_except (install w "numpy") any_exception (emit (Print NumpyFailed)) ;;;
  for_each packages
    (fun package =>
       try_except (install w package) any_exception
         (emit (Print (CouldNotInstall package)))) ;;;
  emit (Print AttemptCorpora) ;;;
  try_except
    (attempt (import_textblob w) ;;;
     call DownloadCorpora (download_all w) ;;;
     emit (Print CorporaDownloaded))
    any_exception
    (emit (Print CorporaError)) ;;;
  emit (Print AttemptStanza) ;;;
  try_except
    (attempt (import_stanza w) ;;;
     attempt (global_name "os") ;;;
     (if negb (model_exists w)
      then call StanzaDownload (stanza_download w)
      else emit (Print StanzaExists)) ;;;
     emit (Print StanzaReady))
    any_exception
    (emit (Print StanzaError)) ;;;
  emit (Print AllComplete) ;;;
  emit (Print YouCanNowRun) ;;;
  emit (Print (RunCommand (String.eqb (platform_system w) "Windows"))).

(** The packages pip was called for, in the order of the calls. *)
Fixpoint pip_calls (ev : list event) : list string :=
  match ev with
  | [] => []
  | Pip p :: ev' => p :: pip_calls ev'
  | _ :: ev' => pip_calls ev'
  end.

(** The last three lines the script prints. *)
Definition final_events (w : World) : list event :=
  [Print AllComplete; Print YouCanNowRun;
   Print (RunCommand (String.eqb (platform_system w) "Windows"))].

(** A machine without network: every pip call fails, nothing imports. *)
Definition offline_world : World :=
  mkWorld (fun _ => Some CalledProcessError) (Some ImportError) None
    (Some ImportError) false None "Linux".

(* ------------------------------------------------------------------ *)
(** ** Sample data *)

Definition scenario_raw : RawRow :=
  mkRaw (Some (lit "Re: Invoice")) (Some (lit "a@x.com"))
    (Some (lit "01/03/2024 09:15:00 AM"))
    (Some (lit "Please review. Kind regards, A")).

Definition sample_raw : list RawRow :=
  [scenario_raw;
   mkRaw (Some (lit "Lunch")) (Some (lit "b@y.org"))
     (Some (lit "04/03/2024 02:30:00 PM")) (Some (lit "See you at noon"));
   mkRaw (Some (lit "Broken date")) (Some (lit "b@y.org"))
     (Some (lit "2024-03-04 14:30")) (Some (lit "dropped"));
   mkRaw (Some (lit "Server down")) (Some (lit "a@x.com"))
     (Some (lit "05/03/2024 11:05:09 PM")) (Some (lit "The build is broken"))].

Definition sample_df : table := normalize sample_raw.

Definition scenario_df : table := normalize [scenario_raw].

Definition plain_raw : RawRow :=
  mkRaw (Some (lit "Lunch")) (Some (lit "b@y.org"))
    (Some (lit "04/03/2024 02:30:00 PM")) (Some (lit "See you at noon")).

Definition plain_df : table := normalize [plain_raw].

Definition thanks_raw : RawRow :=
  mkRaw (Some (lit "Note")) (Some (lit "a@x.com"))
    (Some (lit "04/03/2024 02:30:00 PM")) (Some (lit "Hello thanks.")).

(* ------------------------------------------------------------------ *)
(** ** The keyword match as the specification words it *)

(** The keyword occurs in the cell as it is written, letters compared without
    case; a missing value holds nothing. *)
Definition cell_has (k : str) (x : cell) : bool :=
  match x with
  | Some s => contains_ci k s
  | None => false
  end.

Definition keyword_spec (k : str) (r : Row) : bool :=
  cell_has k (Subject r) || cell_has k (Body r).

(* ------------------------------------------------------------------ *)
(** ** Mean and sample standard deviation as the specification words them *)

Definition sample_mean (xs : list R) (m : R) : Prop :=
  xs <> [] /\ (m * INR (length xs) = Rsum xs)%R.

(** The square of the sample standard deviation is the sum of the squared
    deviations from the mean over the number of values less one. *)
Definition sample_std (xs : list R) (s : R) : Prop :=
  (2 <= length xs)%nat /\ (0 <= s)%R /\
  exists m, sample_mean xs m /\
            (s * s * (INR (length xs) - 1)
             = Rsum (map (fun x => (x - m) * (x - m)) xs))%R.

(** The population standard deviation divides by the number of values. *)
Definition population_std (xs : list R) (s : R) : Prop :=
  xs <> [] /\ (0 <= s)%R /\
  exists m, sample_mean xs m /\
            (s * s * INR (length xs)
             = Rsum (map (fun x => (x - m) * (x - m)) xs))%R.

(** A table with the daily counts of the scenario: 5, 6, 4 and 40 e-mails on
    the first four days of March 2024. *)
Definition day_row (d : Z) : Row :=
  {| Subject := Some (lit "Status");
     Sender := Some (lit "a@x.com");
     Date := mkDateTime (mkDate 2024 3 d) 9 0 0;
     Body := Some (lit "All fine");
     DateOnly := mkDate 2024 3 d;
     Hour := 9;
     Weekday := day_name (mkDate 2024 3 d);
     Month := month_label (mkDate 2024 3 d) |}.

Definition scenario_counts_df : table :=
  repeat (day_row 1) 5 ++ repeat (day_row 2) 6 ++ repeat (day_row 3) 4
  ++ repeat (day_row 4) 40.

Definition scenario_daily : list (date * Z) :=
  [(mkDate 2024 3 1, 5%Z); (mkDate 2024 3 2, 6%Z); (mkDate 2024 3 3, 4%Z);
   (mkDate 2024 3 4, 40%Z)].

(* ================================================================== *)
(** * Properties *)

(** ** Dates and the order on them *)

Lemma date_eqb_eq (a b : date) : date_eqb a b = true <-> a = b.
Proof.
  destruct a as [y m d], b as [y' m' d']; unfold date_eqb; simpl.
  rewrite !andb_true_iff, !Z.eqb_eq. split.
  - intros [[-> ->] ->]. reflexivity.
  - intros [= -> -> ->]. auto.
Qed.

Lemma date_ltb_iff (a b : date) :
  date_ltb a b = true <->
  (year a < year b
   \/ year a = year b
      /\ (month a < month b \/ month a = month b /\ day a < day b))%Z.
Proof.
  unfold date_ltb.
  rewrite !orb_true_iff, !andb_true_iff, !orb_true_iff, !andb_true_iff,
    !Z.ltb_lt, !Z.eqb_eq.
  tauto.
Qed.

Lemma date_leb_iff (a b : date) :
  date_leb a b = true <-> date_ltb a b = true \/ a = b.
Proof.
  unfold date_leb. rewrite orb_true_iff, date_eqb_eq. tauto.
Qed.

Lemma date_leb_refl (a : date) : date_leb a a = true.
Proof. apply date_leb_iff. now right. Qed.

Lemma date_ltb_trans (a b c : date) :
  date_ltb a b = true -> date_ltb b c = true -> date_ltb a c = true.
Proof. rewrite !date_ltb_iff. lia. Qed.

Lemma date_leb_trans (a b c : date) :
  date_leb a b = true -> date_leb b c = true -> date_leb a c = true.
Proof.
  rewrite !date_leb_iff.
  intros [Hab | ->] [Hbc | ->]; auto.
  left. eapply date_ltb_trans; eassumption.
Qed.

Lemma date_not_ltb_leb (a b : date) :
  date_ltb a b = false -> date_leb b a = true.
Proof.
  intros H. apply date_leb_iff.
  destruct (date_ltb b a) eqn:Hba; [now left | right].
  assert (Ha : ~ date_ltb a b = true) by congruence.
  assert (Hb : ~ date_ltb b a = true) by congruence.
  rewrite date_ltb_iff in Ha, Hb.
  destruct a as [y m d], b as [y' m' d']; simpl in *.
  f_equal; lia.
Qed.

Lemma date_ltb_leb (a b : date) : date_ltb a b = true -> date_leb a b = true.
Proof. intros H. apply date_leb_iff. now left. Qed.

(** ** The filter engine *)

Lemma filter_all (A : Type) (f : A -> bool) (l : list A) :
  (forall x, In x l -> f x = true) -> filter f l = l.
Proof.
  induction l as [|x l IH]; simpl; intros H; [reflexivity|].
  rewrite (H x (or_introl eq_refl)). f_equal. apply IH. auto.
Qed.

Lemma min_date_none (t : table) : min_date t = None -> t = [].
Proof.
  destruct t as [|r t]; [reflexivity|]. simpl.
  destruct (min_date t); discriminate.
Qed.

Lemma max_date_none (t : table) : max_date t = None -> t = [].
Proof.
  destruct t as [|r t]; [reflexivity|]. simpl.
  destruct (max_date t); discriminate.
Qed.

Lemma min_date_lower (t : table) (lo : date) :
  min_date t = Some lo -> forall r, In r t -> date_leb lo (DateOnly r) = true.
Proof.
  revert lo. induction t as [|r0 t IH]; simpl; intros lo Hmin r Hin; [contradiction|].
  destruct (min_date t) as [m|] eqn:Hm.
  - injection Hmin as <-.
    destruct (date_ltb (DateOnly r0) m) eqn:Hlt.
    + destruct Hin as [<- | Hin]; [apply date_leb_refl|].
      eapply date_leb_trans; [apply date_ltb_leb, Hlt | now apply IH].
    + destruct Hin as [<- | Hin]; [now apply date_not_ltb_leb | now apply IH].
  - injection Hmin as <-. apply min_date_none in Hm. subst t.
    destruct Hin as [<- | []]. apply date_leb_refl.
Qed.

Lemma max_date_upper (t : table) (hi : date) :
  max_date t = Some hi -> forall r, In r t -> date_leb (DateOnly r) hi = true.
Proof.
  revert hi. induction t as [|r0 t IH]; simpl; intros hi Hmax r Hin; [contradiction|].
  destruct (max_date t) as [m|] eqn:Hm.
  - injection Hmax as <-.
    destruct (date_ltb m (DateOnly r0)) eqn:Hlt.
    + destruct Hin as [<- | Hin]; [apply date_leb_refl|].
      eapply date_leb_trans; [now apply IH | apply date_ltb_leb, Hlt].
    + destruct Hin as [<- | Hin]; [now apply date_not_ltb_leb | now apply IH].
  - injection Hmax as <-. apply max_date_none in Hm. subst t.
    destruct Hin as [<- | []]. apply date_leb_refl.
Qed.

(** The rows of the first and of the last day pass the date filter: the
    bounds are inclusive. *)
Lemma date_bounds_inclusive (w : FilterSpec) (r : Row) :
  DateOnly r = start_date w \/ DateOnly r = end_date w ->
  date_leb (start_date w) (end_date w) = true ->
  in_date_range w r = true.
Proof.
  unfold in_date_range. intros [-> | ->] H; rewrite H, date_leb_refl; reflexivity.
Qed.

(** C1. With no sender selected, no keyword, and the date range set from the
    smallest to the largest [DateOnly] of the table, the filter gives back the
    whole table, rows and order unchanged, and [df] is the table it was.  On
    the empty table the same holds whatever the dates are. *)
Theorem filter_full_range_identity (df0 : table) (w : FilterSpec) :
  sender_filter w = [] ->
  keyword w = [] ->
  df0 = [] \/
  (min_date df0 = Some (start_date w) /\ max_date df0 = Some (end_date w)) ->
  apply_filters df0 w = Some (mkSession df0 df0).
Proof.
  intros Hs Hk Hrange. unfold apply_filters. rewrite Hs, Hk.
  do 2 f_equal.
  destruct Hrange as [-> | [Hmin Hmax]]; [reflexivity|].
  apply filter_all. intros r Hin. unfold in_date_range.
  rewrite (min_date_lower _ Hmin r Hin), (max_date_upper _ Hmax r Hin).
  reflexivity.
Qed.

Lemma filter_full_range_identity_witness :
  apply_filters sample_df (mkFilterSpec (mkDate 2024 3 1) (mkDate 2024 3 5) [] [] [])
  = Some (mkSession sample_df sample_df).
Proof.
  apply filter_full_range_identity;
    [reflexivity | reflexivity | right; split; reflexivity].
Defined.

(** ** The normalizer on the scenario row *)

(** C6. The row dated "01/03/2024 09:15:00 AM" with the body
    "Please review. Kind regards, A" is kept by the normalizer, with the body
    "Please review.", the weekday "Friday" and the hour 9. *)
Theorem normalize_scenario_row :
  map (fun r => (Body r, Weekday r, Hour r)) (normalize [scenario_raw])
  = [(Some (lit "Please review."), lit "Friday", 9%Z)].
Proof. vm_compute. reflexivity. Qed.

(** ** The empty table *)

(** C7. On the empty filtered table the run of the dashboard raises nothing,
    whatever the collaborators do: the metrics are 0, 0 and "N/A", and every
    expander (volume by date, heat map, months, senders, bursts, words,
    bigrams, word cloud, entities, sentiment, insights) shows "no data". *)
Theorem empty_table_no_data
  (STOPWORDS : list str) (polarity : str -> R) (image : Type)
  (wordcloud_generate : list str -> str -> result image)
  (bigram_counts : list str -> list str -> result (list (str * Z)))
  (sample : nat -> list cell -> list cell)
  (nlp_entities : str -> list (str * str)) (w : FilterSpec) :
  dashboard STOPWORDS polarity wordcloud_generate bigram_counts sample
    nlp_entities w []
  = Ok (mkDashboard 0 0 None NoData NoData NoData NoData NoData NoData NoData
          NoData NoData NoData NoData).
Proof. reflexivity. Qed.

(** ** The anomaly rule *)

Lemma flt_Fin (x y : R) : flt (Fin x) (Fin y) = true <-> (x < y)%R.
Proof.
  simpl. destruct (Rlt_dec x y); split; auto; discriminate.
Qed.

Lemma polite_count_zero (t : table) :
  (forall r, In r t -> is_polite (Body r) = false) -> polite_count t = 0%nat.
Proof.
  unfold polite_count. induction t as [|r t IH]; simpl; intros H; [reflexivity|].
  rewrite (H r (or_introl eq_refl)). apply IH. auto.
Qed.

(** C8. For a table that is not empty, the politeness ratio and the mean
    polarity of the summary are the fraction of polite rows and the mean of the
    column [Polarity]; the anomaly flag is raised exactly when there is a burst
    day, or the ratio is below 0.2, or the mean polarity is below -0.1; and
    when no row holds a polite phrase the ratio is 0 and the flag is raised,
    with the politeness condition among the notes. *)
Theorem anomaly_rule (polarity : str -> R) (t : table) :
  t <> [] ->
  let s := insight_summary t (Polarity_column polarity t) in
  let ratio := (INR (polite_count t) / INR (length t))%R in
  let avg := (Rsum (Polarity_column polarity t) / INR (length t))%R in
  polite_ratio s = Fin ratio /\
  avg_polarity s = Fin avg /\
  (anomaly s = true <->
   burst_days t <> [] \/ (ratio < 2 / 10)%R \/ (avg < - (1 / 10))%R) /\
  ((forall r, In r t -> is_polite (Body r) = false) ->
   ratio = 0%R /\ anomaly s = true /\ In LowPoliteness (anomaly_notes s)).
Proof.
  intros Hne s ratio avg.
  assert (Hratio : polite_ratio s = Fin ratio).
  { unfold s, insight_summary, polite_ratio_of; simpl.
    destruct t; [contradiction | reflexivity]. }
  assert (Havg : avg_polarity s = Fin avg).
  { unfold s, insight_summary, avg, Polarity_column; simpl.
    destruct t; [contradiction|]. simpl. rewrite length_map. reflexivity. }
  assert (Hflag : anomaly s =
                  negb (match burst_days t with [] => true | _ :: _ => false end)
                  || flt (Fin ratio) (Fin (2 / 10))
                  || flt (Fin avg) (Fin (- (1 / 10)))).
  { change (anomaly s) with
      (negb (match burst_days t with [] => true | _ :: _ => false end)
                  || flt (polite_ratio s) (Fin (2 / 10))
                  || flt (avg_polarity s) (Fin (- (1 / 10)))).
    rewrite Hratio, Havg. reflexivity. }
  split; [exact Hratio|]. split; [exact Havg|]. split.
  - rewrite Hflag, !orb_true_iff, !flt_Fin.
    destruct (burst_days t); simpl; split.
    + intros [[H | H] | H]; [discriminate | tauto | tauto].
    + intros [H | [H | H]]; [congruence | tauto | tauto].
    + intros _. left. discriminate.
    + intros _. left. left. reflexivity.
  - intros Hnone.
    assert (Hzero : ratio = 0%R).
    { unfold ratio. rewrite (polite_count_zero t Hnone). simpl. lra. }
    assert (Hlow : flt (Fin ratio) (Fin (2 / 10)) = true).
    { apply flt_Fin. rewrite Hzero. lra. }
    split; [exact Hzero|]. split.
    + rewrite Hflag, Hlow. apply orb_true_iff. left. apply orb_true_r.
    + change (anomaly_notes s) with
        ((if negb (match burst_days t with [] => true | _ :: _ => false end)
          then [EmailBursts] else [])
         ++ (if flt (polite_ratio s) (Fin (2 / 10)) then [LowPoliteness] else [])
         ++ (if flt (avg_polarity s) (Fin (- (1 / 10)))
             then [NegativeSentiment] else [])).
      rewrite Hratio, Hlow. apply in_or_app. right. left. reflexivity.
Qed.

Lemma anomaly_rule_witness :
  plain_df <> [] /\
  (forall r, In r plain_df -> is_polite (Body r) = false) /\
  anomaly (insight_summary plain_df (Polarity_column (fun _ => 0%R) plain_df))
  = true.
Proof.
  assert (Hne : plain_df <> []) by (vm_compute; discriminate).
  assert (Hnone : forall r, In r plain_df -> is_polite (Body r) = false).
  { intros r [<- | []]. vm_compute. reflexivity. }
  split; [exact Hne|]. split; [exact Hnone|].
  destruct (@anomaly_rule (fun _ => 0%R) plain_df Hne) as (_ & _ & _ & H).
  destruct (H Hnone) as (_ & Ha & _). exact Ha.
Defined.

(** ** The heat map *)

(** C9, on a table with one e-mail, sent on a Friday at 9: the rows of the
    matrix are Monday to Sunday, but the six weekdays without e-mail hold a
    missing value and not the count 0; only [unstack] is given
    [fill_value=0], [reindex] is not. *)
Theorem heatmap_absent_weekday_is_missing :
  heatmap_data scenario_df
  = mkFrame WEEKDAYS [9%Z]
      [[None]; [None]; [None]; [None]; [Some 1%Z]; [None]; [None]].
Proof. vm_compute. reflexivity. Qed.

(** ** The keyword filter *)

Lemma re_compile_literal (k : str) :
  forallb (fun c => negb (is_meta c)) k = true ->
  re_compile k = Some (map Lit k).
Proof.
  induction k as [|c k IH]; simpl; intros H; [reflexivity|].
  apply andb_true_iff in H. destruct H as [Hc Hk].
  rewrite (IH Hk). simpl.
  destruct (Ascii.eqb c "\"%char) eqn:E1.
  { apply Ascii.eqb_eq in E1. subst c. discriminate Hc. }
  destruct (Ascii.eqb c "."%char) eqn:E2.
  { apply Ascii.eqb_eq in E2. subst c. discriminate Hc. }
  apply negb_true_iff in Hc. rewrite Hc. reflexivity.
Qed.

Lemma match_here_literal (k s : str) :
  match_here (map Lit k) s = prefix_ci k s.
Proof.
  revert s. induction k as [|a k IH]; intros [|c s]; simpl; try reflexivity.
  rewrite IH. reflexivity.
Qed.

Lemma re_search_literal (k s : str) :
  re_search (map Lit k) s = contains_ci k s.
Proof.
  induction s as [|c s IH]; simpl.
  - rewrite match_here_literal. reflexivity.
  - rewrite match_here_literal, IH. reflexivity.
Qed.

(** A keyword without any of the characters [. ^ $ * + ? { } [ ] \ | ( )]
    is searched as it is written: the row is kept exactly when the keyword
    occurs in the subject or in the body, case apart, and a missing cell never
    matches. *)
Lemma keyword_filter_literal (df0 : table) (w : FilterSpec) :
  keyword w <> [] ->
  forallb (fun c => negb (is_meta c)) (keyword w) = true ->
  sender_filter w = [] ->
  option_map filtered_df (apply_filters df0 w)
  = Some (filter (keyword_spec (keyword w)) (filter (in_date_range w) df0)).
Proof.
  intros Hne Hlit Hs. unfold apply_filters. rewrite Hs.
  destruct (keyword w) as [|c k] eqn:Hk; [contradiction|].
  rewrite (re_compile_literal _ Hlit). simpl. f_equal.
  apply filter_ext. intros r. unfold keyword_mask, keyword_spec, str_contains, cell_has.
  change (Lit c :: map Lit k) with (map Lit (c :: k)).
  destruct (Subject r), (Body r); rewrite ?re_search_literal; reflexivity.
Qed.

Lemma missing_cell_never_matches (pat : regex) : str_contains pat None = false.
Proof. reflexivity. Qed.

(** C2, on the keyword ["."] and the row with subject "Lunch" and body
    "See you at noon": the keyword occurs in neither cell, and the filter
    keeps the row, because the keyword is compiled as a pattern, in which
    [.] stands for any character. *)
Theorem keyword_dot_keeps_every_row :
  let w := mkFilterSpec (mkDate 2024 3 1) (mkDate 2024 3 5) [] (lit ".") [] in
  option_map filtered_df (apply_filters plain_df w) = Some plain_df /\
  filter (keyword_spec (keyword w)) plain_df = [].
Proof. vm_compute. split; reflexivity. Qed.

(** ** Burst detection *)

Section BurstArithmetic.
Local Open Scope R_scope.

Lemma sqrt_threshold (V a : R) :
  0 <= V -> (2 * sqrt V < a <-> 0 < a /\ 4 * V < a * a).
Proof.
  intros HV.
  pose proof (sqrt_pos V) as Hs.
  pose proof (sqrt_sqrt V HV) as Hss.
  split.
  - intros H. split; [lra|]. nra.
  - intros [Ha H]. destruct (Rlt_dec (2 * sqrt V) a) as [|Hn]; [assumption|].
    exfalso. apply Rnot_lt_le in Hn. nra.
Qed.

Lemma Rsum_sq_dev (m : R) (xs : list R) :
  Rsum (map (fun x => (m - x) * (m - x)) xs)
  = Rsum (map (fun x => x * x) xs) - 2 * m * Rsum xs + INR (length xs) * m * m.
Proof.
  induction xs as [|x xs IH].
  - simpl. ring.
  - cbn [map Rsum fold_right length]. rewrite S_INR.
    unfold Rsum in IH. rewrite IH. ring.
Qed.

Lemma burst_real (n S Q c : R) :
  1 < n ->
  0 <= (Q - 2 * (S / n) * S + n * (S / n) * (S / n)) / (n - 1) ->
  (S / n + 2 * sqrt ((Q - 2 * (S / n) * S + n * (S / n) * (S / n)) / (n - 1)) < c
   <-> S < n * c
       /\ 4 * n * (n * Q - S * S) < (n - 1) * ((n * c - S) * (n * c - S))).
Proof.
  intros Hn HV.
  set (V := (Q - 2 * (S / n) * S + n * (S / n) * (S / n)) / (n - 1)) in *.
  assert (HVn : n * Q - S * S = n * (n - 1) * V).
  { unfold V. field. lra. }
  assert (Ha : n * c - S = n * (c - S / n)).
  { field. lra. }
  rewrite HVn, Ha.
  set (a := c - S / n).
  transitivity (2 * sqrt V < a).
  { unfold a. split; intros; lra. }
  rewrite (sqrt_threshold a HV).
  assert (Hn0 : 0 < n) by lra.
  assert (Hn1 : 0 < n - 1) by lra.
  assert (Hk : 0 < n * n * (n - 1)) by (apply Rmult_lt_0_compat; [apply Rmult_lt_0_compat|]; lra).
  split.
  - intros [H1 H2]. split.
    + assert (0 < n * a) by (apply Rmult_lt_0_compat; lra). unfold a in *. lra.
    + replace (4 * n * (n * (n - 1) * V)) with (n * n * (n - 1) * (4 * V)) by ring.
      replace ((n - 1) * (n * a * (n * a))) with (n * n * (n - 1) * (a * a)) by ring.
      apply Rmult_lt_compat_l; assumption.
  - intros [H1 H2]. split.
    + assert (Hna : 0 < n * a) by (unfold a; lra).
      destruct (Rlt_dec 0 a) as [|Hneg]; [assumption|].
      exfalso. apply Rnot_lt_le in Hneg.
      assert (n * a <= 0) by nra. lra.
    + replace (4 * n * (n * (n - 1) * V)) with (n * n * (n - 1) * (4 * V)) in H2 by ring.
      replace ((n - 1) * (n * a * (n * a))) with (n * n * (n - 1) * (a * a)) in H2 by ring.
      apply Rmult_lt_reg_l in H2; assumption.
Qed.

Lemma Zsum_IZR (cs : list Z) : Rsum (map IZR cs) = IZR (Zsum cs).
Proof.
  induction cs as [|c cs IH]; [reflexivity|].
  cbn [map Rsum fold_right Zsum]. rewrite plus_IZR. unfold Rsum, Zsum in IH.
  rewrite IH. reflexivity.
Qed.

Lemma Zsum_sq_IZR (cs : list Z) :
  Rsum (map (fun x => x * x) (map IZR cs)) = IZR (Zsum (map (fun x => x * x)%Z cs)).
Proof.
  induction cs as [|c cs IH]; [reflexivity|].
  cbn [map Rsum fold_right Zsum]. rewrite plus_IZR, mult_IZR.
  unfold Rsum, Zsum in IH. rewrite IH. reflexivity.
Qed.

Lemma Rsum_sq_nonneg (m : R) (xs : list R) :
  0 <= Rsum (map (fun x => (m - x) * (m - x)) xs).
Proof.
  induction xs as [|x xs IH]; [simpl; lra|].
  cbn [map Rsum fold_right]. unfold Rsum in IH.
  pose proof (Rle_0_sqr (m - x)) as Hsq. unfold Rsqr in Hsq. lra.
Qed.

Lemma threshold_test (cs : list Z) (c : Z) :
  flt (fadd (Series_mean (map IZR cs)) (fmul (Fin 2) (Series_std (map IZR cs))))
      (Fin (IZR c))
  = burst_test (Z.of_nat (length cs)) (Zsum cs) (Zsum (map (fun x => x * x)%Z cs)) c.
Proof.
  destruct cs as [|x [|y cs]]; [reflexivity | reflexivity |].
  set (l := x :: y :: cs).
  assert (Hlen : (2 <= length l)%nat) by (simpl; lia).
  assert (Hn : 1 < INR (length l)).
  { apply (lt_INR 1). lia. }
  unfold Series_std.
  replace (Series_mean (map IZR l))
    with (Fin (Rsum (map IZR l) / INR (length (map IZR l)))) by reflexivity.
  rewrite length_map.
  replace (length l <=? 1)%nat with false by (symmetry; apply Nat.leb_gt; lia).
  cbn [fmul fadd].
  apply eq_true_iff_eq. rewrite flt_Fin.
  pose proof (Rsum_sq_nonneg (Rsum (map IZR l) / INR (length l)) (map IZR l)) as Hnn.
  rewrite Rsum_sq_dev, length_map in *.
  rewrite burst_real.
  2: exact Hn.
  2: { apply Rmult_le_pos; [exact Hnn|]. left. apply Rinv_0_lt_compat. lra. }
  unfold burst_test.
  rewrite !andb_true_iff, !Z.ltb_lt.
  rewrite Zsum_IZR, Zsum_sq_IZR, INR_IZR_INZ.
  replace 1 with (IZR 1) by reflexivity. replace 4 with (IZR 4) by reflexivity.
  rewrite <- !mult_IZR, <- !minus_IZR, <- !mult_IZR.
  split.
  - intros [H1 H2]. apply lt_IZR in H1, H2. repeat split; try assumption. lia.
  - intros [[_ H1] H2]. split; apply IZR_lt; assumption.
Qed.

Lemma bursts_exact_correct (daily : list (date * Z)) :
  bursts_of daily = bursts_exact daily.
Proof.
  unfold bursts_of, bursts_exact. apply filter_ext. intros dc.
  unfold threshold, mean_count, std_count, counts_of.
  rewrite <- (map_map snd IZR). apply threshold_test.
Qed.

End BurstArithmetic.

Section GroupByFacts.
Variable K : Type.
Variables eqb ltb : K -> K -> bool.
Hypothesis eqb_eq : forall a b, eqb a b = true <-> a = b.

Lemma length_insert_sorted (k : K) (l : list K) :
  length (insert_sorted ltb k l) = S (length l).
Proof.
  induction l as [|x l IH]; simpl; [reflexivity|].
  destruct (ltb k x); simpl; [reflexivity | now rewrite IH].
Qed.

Lemma length_sort_keys (l : list K) : length (sort_keys ltb l) = length l.
Proof.
  induction l as [|x l IH]; simpl; [reflexivity|].
  rewrite length_insert_sorted, IH. reflexivity.
Qed.

Lemma length_groupby_size (keys : list K) :
  length (groupby_size eqb ltb keys) = length (distinct eqb keys).
Proof. unfold groupby_size. rewrite length_map. apply length_sort_keys. Qed.

Lemma distinct_one_value (keys : list K) :
  (forall a b, In a keys -> In b keys -> a = b) ->
  (length (distinct eqb keys) <= 1)%nat.
Proof.
  induction keys as [|k keys IH]; simpl; intros Hall; [lia|].
  destruct keys as [|k' keys'].
  - simpl. lia.
  - assert (Hk : k = k') by (apply Hall; simpl; auto).
    replace (existsb (eqb k) (k' :: keys')) with true.
    + apply IH. intros a b Ha Hb. apply Hall; right; assumption.
    + symmetry. simpl. apply orb_true_iff. left. apply eqb_eq. exact Hk.
Qed.

End GroupByFacts.

Lemma In_insert_sorted (K : Type) (ltb : K -> K -> bool) (k x : K) (l : list K) :
  In x (insert_sorted ltb k l) <-> x = k \/ In x l.
Proof.
  induction l as [|y l IH]; simpl; [intuition|].
  destruct (ltb k y); simpl; [intuition | rewrite IH; intuition].
Qed.

Lemma In_sort_keys (K : Type) (ltb : K -> K -> bool) (x : K) (l : list K) :
  In x (sort_keys ltb l) <-> In x l.
Proof.
  induction l as [|y l IH]; simpl; [tauto|].
  rewrite In_insert_sorted, IH. intuition.
Qed.

Lemma In_distinct (K : Type) (eqb : K -> K -> bool) (x : K) (l : list K) :
  (forall a b, eqb a b = true <-> a = b) ->
  In x (distinct eqb l) <-> In x l.
Proof.
  intros Heq. induction l as [|y l IH]; simpl; [tauto|].
  destruct (existsb (eqb y) l) eqn:E.
  - rewrite IH. split; [auto|]. intros [<- | H]; [|exact H].
    apply existsb_exists in E. destruct E as (z & Hz & Hyz).
    apply Heq in Hyz. subst z. exact Hz.
  - simpl. rewrite IH. tauto.
Qed.

(** The entries of [daily_counts] are the days of the table, each with the
    number of its rows. *)
Lemma daily_counts_spec (t : table) (d : date) (c : Z) :
  In (d, c) (daily_counts t) <->
  In d (map DateOnly t) /\ c = count_key date_eqb d (map DateOnly t).
Proof.
  unfold daily_counts, groupby_size. rewrite in_map_iff. split.
  - intros (k & [= <- <-] & Hk).
    apply In_sort_keys, In_distinct in Hk; [|exact date_eqb_eq]. auto.
  - intros [Hd ->]. exists d. split; [reflexivity|].
    apply In_sort_keys, In_distinct; [exact date_eqb_eq | exact Hd].
Qed.

Section Burst.
Local Open Scope R_scope.

Lemma Series_mean_spec (xs : list R) (m : R) :
  Series_mean xs = Fin m <-> sample_mean xs m.
Proof.
  unfold sample_mean. destruct xs as [|x xs].
  - split; [discriminate | intros [H _]; now elim H].
  - set (l := x :: xs).
    assert (Hn : 0 < INR (length l)) by (apply (lt_INR 0); simpl; lia).
    change (Series_mean l) with (Fin (Rsum l / INR (length l))).
    assert (Hne : l <> []) by discriminate.
    clearbody l. generalize dependent (INR (length l)). intros n Hn.
    split.
    + intros [= <-]. split; [exact Hne|]. field. lra.
    + intros [_ H]. f_equal. rewrite <- H. field. lra.
Qed.

Lemma Rsum_map_ext (f g : R -> R) (xs : list R) :
  (forall x, f x = g x) -> Rsum (map f xs) = Rsum (map g xs).
Proof. intros H. f_equal. apply map_ext. exact H. Qed.

Lemma Series_std_spec (xs : list R) (s : R) :
  Series_std xs = Fin s <-> sample_std xs s.
Proof.
  unfold sample_std, Series_std.
  destruct (Series_mean xs) as [|avg] eqn:Hmean.
  - split; [discriminate|].
    intros (_ & _ & m & Hm & _). apply Series_mean_spec in Hm. congruence.
  - destruct (Nat.leb_spec (length xs) 1) as [Hle | Hgt].
    + split; [discriminate | intros [H _]; lia].
    + assert (Hn : 0 < INR (length xs) - 1).
      { apply (lt_INR 1) in Hgt. simpl in Hgt. lra. }
      pose proof (Rsum_sq_nonneg avg xs) as Hnn.
      set (D := Rsum (map (fun x => (avg - x) * (avg - x)) xs)) in *.
      assert (HV : 0 <= D / (INR (length xs) - 1)).
      { apply Rmult_le_pos; [exact Hnn|]. left. now apply Rinv_0_lt_compat. }
      assert (HD : D = Rsum (map (fun x => (x - avg) * (x - avg)) xs)).
      { apply Rsum_map_ext. intros x. ring. }
      split.
      * intros [= <-]. split; [lia|]. split; [apply sqrt_pos|].
        exists avg. split; [now apply Series_mean_spec|].
        rewrite (sqrt_sqrt _ HV), <- HD. field. lra.
      * intros (_ & Hs & m & Hm & Hsq).
        apply Series_mean_spec in Hm. rewrite Hmean in Hm. injection Hm as <-.
        f_equal. rewrite <- HD in Hsq.
        replace (D / (INR (length xs) - 1)) with (s * s).
        -- now apply sqrt_square.
        -- rewrite <- Hsq. field. lra.
Qed.

Lemma threshold_exceeded (daily : list (date * Z)) (c : Z) :
  flt (threshold daily) (Fin (IZR c)) = true <->
  exists m s, sample_mean (counts_of daily) m /\ sample_std (counts_of daily) s
              /\ m + 2 * s < IZR c.
Proof.
  unfold threshold, mean_count, std_count. split.
  - destruct (Series_mean (counts_of daily)) as [|m] eqn:Hm; [discriminate|].
    destruct (Series_std (counts_of daily)) as [|s] eqn:Hs; [discriminate|].
    cbn [fmul fadd]. rewrite flt_Fin. intros H. exists m, s.
    split; [now apply Series_mean_spec|]. split; [now apply Series_std_spec | exact H].
  - intros (m & s & Hm & Hs & H).
    apply Series_mean_spec in Hm. apply Series_std_spec in Hs.
    rewrite Hm, Hs. cbn [fmul fadd]. apply flt_Fin. exact H.
Qed.

Lemma bursts_of_short (daily : list (date * Z)) :
  (length daily <= 1)%nat -> bursts_of daily = [].
Proof.
  destruct daily as [|p [|q l]]; [reflexivity | reflexivity |].
  simpl. lia.
Qed.

End Burst.

(** C3. The entries of [daily_counts] are the days with their numbers of
    e-mails; a day is a burst day exactly when its count is above the mean
    plus twice the sample standard deviation of these counts; and a table
    whose rows all have the same day has no burst day. *)
Theorem burst_days_rule (t : table) :
  (forall d c, In (d, c) (daily_counts t) <->
     In d (map DateOnly t) /\ c = count_key date_eqb d (map DateOnly t)) /\
  (forall d c, In (d, c) (burst_days t) <->
     In (d, c) (daily_counts t) /\
     exists m s, sample_mean (counts_of (daily_counts t)) m /\
                 sample_std (counts_of (daily_counts t)) s /\
                 (m + 2 * s < IZR c)%R) /\
  ((forall r1 r2, In r1 t -> In r2 t -> DateOnly r1 = DateOnly r2) ->
   burst_days t = []).
Proof.
  split; [intros d c; apply daily_counts_spec|]. split.
  - intros d c. unfold burst_days, bursts_of. rewrite filter_In.
    cbn [snd]. rewrite threshold_exceeded. reflexivity.
  - intros Hsame. apply bursts_of_short. unfold daily_counts.
    rewrite length_groupby_size. apply distinct_one_value.
    + exact date_eqb_eq.
    + intros a b Ha Hb. apply in_map_iff in Ha, Hb.
      destruct Ha as (r1 & <- & H1), Hb as (r2 & <- & H2). now apply Hsame.
Qed.

Lemma burst_days_rule_witness : burst_days scenario_df = [].
Proof.
  apply (proj2 (proj2 (burst_days_rule scenario_df))).
  intros r1 r2 [<- | []] [<- | []]. reflexivity.
Defined.

(** C4 as the specification has it fails: on the daily counts 5, 6, 4 and 40
    the fourth day is not flagged. *)
Lemma scenario_counts_day4_not_flagged :
  ~ (mean_count scenario_daily = Fin (1375 / 100) /\
     bursts_of scenario_daily = [(mkDate 2024 3 4, 40%Z)]).
Proof.
  intros [_ H]. rewrite bursts_exact_correct in H. vm_compute in H. discriminate.
Qed.

(** C4, amended.  With the daily counts 5, 6, 4 and 40 the mean is 13.75 and
    no day is a burst day: the sample standard deviation is the root of
    920.75 / 3, about 17.52, and 40 is below 13.75 plus twice that; with the
    population standard deviation 40 is not above the threshold either. *)
Theorem scenario_counts_no_burst (t : table) :
  map snd (daily_counts t) = [5; 6; 4; 40]%Z ->
  mean_count (daily_counts t) = Fin (1375 / 100) /\
  burst_days t = [] /\
  (forall s, population_std (counts_of (daily_counts t)) s ->
             ~ (1375 / 100 + 2 * s < 40)%R).
Proof.
  intros H. unfold burst_days.
  destruct (daily_counts t) as [|[d1 c1] [|[d2 c2] [|[d3 c3] [|[d4 c4] [|]]]]];
    try discriminate H.
  simpl in H. injection H as -> -> -> ->.
  split; [|split].
  - unfold mean_count, counts_of, Series_mean. cbn [map snd length Rsum fold_right].
    f_equal. simpl. lra.
  - rewrite bursts_exact_correct. vm_compute. reflexivity.
  - intros s (_ & Hs & m & [_ Hm] & Hsq) Hlt.
    unfold counts_of in Hm, Hsq.
    cbn [map snd length Rsum fold_right INR] in Hm, Hsq.
    assert (Hm' : m = (1375 / 100)%R) by lra.
    subst m. nra.
Qed.

Lemma scenario_counts_no_burst_witness :
  map snd (daily_counts scenario_counts_df) = [5; 6; 4; 40]%Z /\
  burst_days scenario_counts_df = [].
Proof.
  assert (H : map snd (daily_counts scenario_counts_df) = [5; 6; 4; 40]%Z)
    by (vm_compute; reflexivity).
  split; [exact H|]. exact (proj1 (proj2 (scenario_counts_no_burst _ H))).
Defined.

(** ** Body cleaning *)

Lemma is_nl_eq (c : ascii) : is_nl c = true -> c = "010"%char.
Proof.
  destruct c as [[] [] [] [] [] [] [] []]; vm_compute; intros H;
    try discriminate H; reflexivity.
Qed.

Lemma lower_nl (a : ascii) : lower a = "010"%char -> a = "010"%char.
Proof.
  destruct a as [[] [] [] [] [] [] [] []]; vm_compute; intros H;
    try discriminate H; reflexivity.
Qed.

Lemma match_nl (a c : ascii) :
  Ascii.eqb (lower a) (lower c) = true -> is_nl c = true -> is_nl a = true.
Proof.
  intros H Hc. apply is_nl_eq in Hc. subst c. apply Ascii.eqb_eq in H.
  change (lower "010") with "010"%char in H. apply lower_nl in H. subst a.
  reflexivity.
Qed.

Lemma first_alt_some (ks : list str) (s k : str) :
  first_alt ks s = Some k -> In k ks /\ prefix_ci k s = true.
Proof.
  induction ks as [|k0 ks IH]; simpl; [discriminate|].
  destruct (prefix_ci k0 s) eqn:E.
  - intros [= <-]. auto.
  - intros H. destruct (IH H). auto.
Qed.

Lemma first_alt_any (ks : list str) (s : str) :
  any_alt ks s = match first_alt ks s with Some _ => true | None => false end.
Proof.
  unfold any_alt. induction ks as [|k ks IH]; simpl; [reflexivity|].
  destruct (prefix_ci k s); simpl; [reflexivity | exact IH].
Qed.

Section NoLineFeed.
Variable ks : list str.
Hypothesis ks_nl_free : forallb nl_free ks = true.

Lemma keyword_nl_free (k : str) : In k ks -> nl_free k = true.
Proof. intros H. exact (proj1 (forallb_forall _ _) ks_nl_free k H). Qed.

(** A keyword that is not empty does not match at a line feed. *)
Lemma no_match_at_nl (a c : ascii) (k s : str) :
  nl_free (a :: k) = true -> is_nl c = true -> prefix_ci (a :: k) (c :: s) = false.
Proof.
  simpl. intros Hk Hc. apply andb_true_iff in Hk. destruct Hk as [Ha _].
  destruct (Ascii.eqb (lower a) (lower c)) eqn:E; [|reflexivity].
  rewrite (@match_nl a c E Hc) in Ha. discriminate Ha.
Qed.

Lemma scan_is_scan_lines (s : str) :
  (forall dot, re_sub_scan ks 0 dot s = scan_lines ks dot s) /\
  (forall k, nl_free k = true -> prefix_ci k s = true ->
             re_sub_scan ks (length k) true s = scan_lines ks true s).
Proof.
  induction s as [|c s [IH1 IH2]].
  - split; [reflexivity|]. intros [|a k] _ _; reflexivity.
  - assert (H1 : forall dot, re_sub_scan ks 0 dot (c :: s) = scan_lines ks dot (c :: s)).
    { intros dot. cbn [re_sub_scan scan_lines].
      rewrite first_alt_any.
      destruct (is_nl c) eqn:Hc.
      - rewrite andb_false_r. cbn [negb].
        destruct (first_alt ks (c :: s)) as [[|a k]|] eqn:Hf.
        + destruct (first_alt (filter nonempty ks) (c :: s)) as [[|a k]|] eqn:Hg;
            try (now rewrite IH1).
          apply first_alt_some in Hg. destruct Hg as [Hin Hp].
          apply filter_In in Hin. destruct Hin as [Hin _].
          rewrite (@no_match_at_nl a c k s (@keyword_nl_free _ Hin) Hc) in Hp.
          discriminate Hp.
        + apply first_alt_some in Hf. destruct Hf as [Hin Hp].
          rewrite (@no_match_at_nl a c k s (@keyword_nl_free _ Hin) Hc) in Hp.
          discriminate Hp.
        + now rewrite IH1.
      - cbn [negb]. rewrite andb_true_r.
        destruct dot; cbn [orb]; [apply IH1|].
        destruct (first_alt ks (c :: s)) as [[|a k]|] eqn:Hf.
        + apply IH1.
        + apply first_alt_some in Hf. destruct Hf as [Hin Hp].
          pose proof (@keyword_nl_free _ Hin) as Hk.
          simpl in Hp, Hk. apply andb_true_iff in Hp, Hk.
          apply IH2; tauto.
        + now rewrite IH1. }
    split; [exact H1|].
    intros [|a k] Hk Hp; [apply H1|].
    cbn [length re_sub_scan]. cbn [scan_lines].
    simpl in Hp, Hk. apply andb_true_iff in Hp, Hk.
    destruct Hp as [Hac Hp], Hk as [Ha Hk].
    destruct (is_nl c) eqn:Hc.
    + rewrite (@match_nl a c Hac Hc) in Ha. discriminate Ha.
    + cbn [orb]. apply IH2; assumption.
Qed.
End NoLineFeed.

Lemma prefix_ci_app (k s q : str) :
  prefix_ci k s = true -> prefix_ci k (s ++ q) = true.
Proof.
  revert s. induction k as [|a k IH]; intros [|c s]; simpl; try easy.
  intros H. apply andb_true_iff in H. destruct H as [-> H]. now apply IH.
Qed.

Lemma any_alt_app (ks : list str) (s q : str) :
  any_alt ks s = true -> any_alt ks (s ++ q) = true.
Proof.
  unfold any_alt. rewrite !existsb_exists. intros (k & Hin & Hp).
  exists k. split; [exact Hin | now apply prefix_ci_app].
Qed.

Lemma no_hit_suffix (ks : list str) (p s : str) : no_hit ks (p ++ s) -> no_hit ks s.
Proof. induction p as [|c p IH]; simpl; [auto | intros [_ H]; auto]. Qed.

Lemma no_hit_prefix (ks : list str) (s q : str) : no_hit ks (s ++ q) -> no_hit ks s.
Proof.
  induction s as [|c s IH]; simpl; [auto|].
  intros [[Hc | Hn] H]; (split; [|now apply IH]); [now left | right].
  destruct (any_alt ks (c :: s)) eqn:E; [|reflexivity].
  apply (any_alt_app _ _ q) in E. simpl in E. congruence.
Qed.

Lemma scan_lines_fixed (ks : list str) (s : str) :
  no_hit ks s -> scan_lines ks false s = s.
Proof.
  induction s as [|c s IH]; [reflexivity|].
  intros [Hc H]. cbn [scan_lines].
  destruct (is_nl c) eqn:E; [now rewrite IH|].
  destruct Hc as [Hc | Hc]; [discriminate Hc|].
  rewrite Hc. cbn [orb]. now rewrite IH.
Qed.

Section NoLineFeedScan.
Variable ks : list str.
Hypothesis ks_nl_free : forallb nl_free ks = true.

Lemma scan_lines_dot (s : str) : starts_nl (scan_lines ks true s).
Proof.
  induction s as [|c s IH]; simpl; [exact I|].
  destruct (is_nl c) eqn:E; [exact E | exact IH].
Qed.

(** What a line of the result shows is what the text had there. *)
Lemma prefix_ci_scan_lines (k s : str) :
  nl_free k = true ->
  prefix_ci k (scan_lines ks false s) = true -> prefix_ci k s = true.
Proof.
  revert k. induction s as [|c s IH]; intros [|a k] Hk; try easy.
  cbn [scan_lines].
  destruct (is_nl c) eqn:Hc.
  - rewrite (@no_match_at_nl a c k _ Hk Hc). discriminate.
  - cbn [orb]. destruct (any_alt ks (c :: s)) eqn:E.
    + pose proof (scan_lines_dot s) as Hd.
      destruct (scan_lines ks true s) as [|c' s'']; [discriminate|].
      simpl in Hd. rewrite (@no_match_at_nl a c' k _ Hk Hd). discriminate.
    + simpl. simpl in Hk. intros H.
      apply andb_true_iff in H, Hk. destruct H as [-> H], Hk as [_ Hk].
      now apply IH.
Qed.

Lemma any_alt_scan_lines (s : str) :
  any_alt ks (scan_lines ks false s) = true -> any_alt ks s = true.
Proof.
  unfold any_alt. rewrite !existsb_exists. intros (k & Hin & Hp).
  exists k. split; [exact Hin|].
  apply prefix_ci_scan_lines; [|exact Hp].
  exact (proj1 (forallb_forall _ _) ks_nl_free k Hin).
Qed.

Lemma scan_lines_no_hit (dot : bool) (s : str) : no_hit ks (scan_lines ks dot s).
Proof.
  revert dot. induction s as [|c s IH]; intros dot; [exact I|].
  cbn [scan_lines].
  destruct (is_nl c) eqn:Hc.
  - split; [now left | apply IH].
  - destruct (dot || any_alt ks (c :: s)) eqn:E; [apply IH|].
    apply orb_false_iff in E. destruct E as [_ E].
    split; [|apply IH]. right.
    destruct (any_alt ks (c :: scan_lines ks false s)) eqn:E'; [|reflexivity].
    assert (Hs : c :: scan_lines ks false s = scan_lines ks false (c :: s)).
    { cbn [scan_lines]. rewrite Hc, E. reflexivity. }
    rewrite Hs in E'. apply any_alt_scan_lines in E'. congruence.
Qed.

End NoLineFeedScan.

(** *** [strip] *)

Lemma dropwhile_suffix (p : ascii -> bool) (s : str) :
  exists q, s = q ++ dropwhile p s.
Proof.
  induction s as [|c s [q IH]]; simpl; [now exists []|].
  destruct (p c); [|now exists []].
  exists (c :: q). simpl. now f_equal.
Qed.

Lemma dropwhile_head (p : ascii -> bool) (s : str) :
  match dropwhile p s with [] => True | c :: _ => p c = false end.
Proof.
  induction s as [|c s IH]; simpl; [exact I|].
  destruct (p c) eqn:E; [exact IH | exact E].
Qed.

Lemma dropwhile_fixed (p : ascii -> bool) (s : str) :
  match s with [] => True | c :: _ => p c = false end -> dropwhile p s = s.
Proof. destruct s as [|c s]; simpl; [reflexivity | now intros ->]. Qed.

Lemma strip_infix (s : str) : exists p q, s = p ++ strip s ++ q.
Proof.
  unfold strip, lstrip, rstrip.
  destruct (dropwhile_suffix is_space (rev s)) as [q Hq].
  destruct (dropwhile_suffix is_space (rev (dropwhile is_space (rev s)))) as [p Hp].
  exists p, (rev q).
  rewrite app_assoc, <- Hp, <- rev_app_distr, <- Hq, rev_involutive. reflexivity.
Qed.

Lemma strip_idempotent (s : str) : strip (strip s) = strip s.
Proof.
  unfold strip, lstrip, rstrip.
  set (y := rev (dropwhile is_space (rev s))).
  assert (Hy : match rev y with [] => True | c :: _ => is_space c = false end).
  { unfold y. rewrite rev_involutive. apply dropwhile_head. }
  destruct (dropwhile_suffix is_space y) as [q Hq].
  set (u := dropwhile is_space y) in *.
  assert (Hu : rev (dropwhile is_space (rev u)) = u).
  { destruct u as [|c u'] eqn:Eu; [reflexivity|].
    rewrite dropwhile_fixed; [apply rev_involutive|].
    rewrite Hq, rev_app_distr in Hy.
    destruct (rev (c :: u')) as [|c' r] eqn:Er; [|exact Hy].
    apply (f_equal (@length _)) in Er. rewrite length_rev in Er. discriminate Er. }
  rewrite Hu. apply dropwhile_fixed. apply dropwhile_head.
Qed.

(** C5, amended.  When no cleanup keyword holds a line feed, cleaning a body
    that was cleaned with the same keywords changes nothing. *)
Theorem clean_body_idempotent (text : str) (keywords_to_remove : list str) :
  forallb nl_free keywords_to_remove = true ->
  clean_body (clean_body text keywords_to_remove) keywords_to_remove
  = clean_body text keywords_to_remove.
Proof.
  intros Hks. unfold clean_body.
  rewrite !(proj1 (@scan_is_scan_lines keywords_to_remove Hks _)).
  set (S0 := scan_lines keywords_to_remove false text).
  assert (Hno : no_hit keywords_to_remove (strip S0)).
  { destruct (strip_infix S0) as (p & q & Hpq).
    pose proof (@scan_lines_no_hit keywords_to_remove Hks false text) as H. fold S0 in H.
    rewrite Hpq in H. apply no_hit_suffix, no_hit_prefix in H. exact H. }
  rewrite (@scan_lines_fixed keywords_to_remove _ Hno). apply strip_idempotent.
Qed.

Lemma clean_body_idempotent_witness :
  clean_body (clean_body (lit "Please review. Kind regards, A") BODY_CLEANUP_KEYWORDS)
    BODY_CLEANUP_KEYWORDS
  = clean_body (lit "Please review. Kind regards, A") BODY_CLEANUP_KEYWORDS.
Proof. apply clean_body_idempotent. reflexivity. Defined.

(** C5 as the specification has it fails: with the keyword made of "a", a
    line feed and "b", the text "aa", line feed, "b", line feed, "b" is
    cleaned to "a", line feed, "b", and cleaning that gives the empty text. *)
Lemma clean_body_not_idempotent :
  let nl := "010"%char in
  let ks := [["a"; nl; "b"]%char] in
  let text := ["a"; "a"; nl; "b"; nl; "b"]%char in
  clean_body (clean_body text ks) ks <> clean_body text ks.
Proof. vm_compute. discriminate. Qed.

(** ** Cleaning comes before filtering *)

(** The filter reads the cleaned body: line 105 replaces the column [Body]
    before the filters of lines 131-139 run. *)
Lemma filter_reads_cleaned_body (bo : str) (r : RawRow) (row : Row) :
  raw_Body r = Some bo -> normalize_row r = Some row ->
  Body row = Some (clean_body bo BODY_CLEANUP_KEYWORDS).
Proof.
  unfold normalize_row. intros ->.
  destruct (raw_Subject r), (raw_Sender r), (raw_Date r); try discriminate.
  destruct (to_datetime s1); [|discriminate].
  intros [= <-]. reflexivity.
Qed.

(** C10, on the keyword ["."] and the body "Hello thanks.": the keyword occurs
    in the body once, after the closing phrase, and the cleaned body "Hello"
    does not hold it; the filter matches the row on its body all the same,
    because the keyword is compiled as a pattern. *)
Theorem keyword_in_removed_text_matches :
  map Body (normalize [thanks_raw]) = [Some (lit "Hello")] /\
  contains_ci (lit ".") (lit "Hello thanks") = false /\
  exists pat, re_compile (lit ".") = Some pat /\
              map (fun r => str_contains pat (Body r)) (normalize [thanks_raw])
              = [true].
Proof.
  split; [vm_compute; reflexivity|]. split; [vm_compute; reflexivity|].
  exists [AnyChar]. split; vm_compute; reflexivity.
Qed.

(** ** The heat map in general *)

Lemma str_eqb_eq (a b : str) : str_eqb a b = true <-> a = b.
Proof.
  revert b. induction a as [|x a IH]; intros [|y b]; simpl; try easy.
  rewrite andb_true_iff, Ascii.eqb_eq, IH. split.
  - intros [-> ->]. reflexivity.
  - intros [= -> ->]. auto.
Qed.

Lemma wh_eqb_eq (a b : str * Z) : wh_eqb a b = true <-> a = b.
Proof.
  destruct a as [w h], b as [w' h']. unfold wh_eqb. simpl.
  rewrite andb_true_iff, str_eqb_eq, Z.eqb_eq. split.
  - intros [-> ->]. reflexivity.
  - intros [= -> ->]. auto.
Qed.

Section LookupFacts.
Variable K : Type.
Variable eqb : K -> K -> bool.
Hypothesis eqb_eq : forall a b, eqb a b = true <-> a = b.

Lemma existsb_eqb_In (k : K) (l : list K) : existsb (eqb k) l = true <-> In k l.
Proof.
  rewrite existsb_exists. split.
  - intros (x & Hx & E). apply eqb_eq in E. now subst x.
  - intros H. exists k. split; [exact H | now apply eqb_eq].
Qed.

Lemma lookup_map (f : K -> Z) (k : K) (l : list K) :
  lookup eqb k (map (fun x => (x, f x)) l)
  = if existsb (eqb k) l then Some (f k) else None.
Proof.
  induction l as [|x l IH]; simpl; [reflexivity|].
  destruct (eqb k x) eqn:E; simpl; [|exact IH].
  apply eqb_eq in E. now subst x.
Qed.

Lemma count_key_absent (k : K) (l : list K) :
  existsb (eqb k) l = false -> count_key eqb k l = 0%Z.
Proof.
  unfold count_key. induction l as [|x l IH]; simpl; [reflexivity|].
  destruct (eqb k x); simpl; [discriminate | exact IH].
Qed.

Lemma existsb_sort_distinct (ltb : K -> K -> bool) (k : K) (l : list K) :
  existsb (eqb k) (sort_keys ltb (distinct eqb l)) = existsb (eqb k) l.
Proof.
  apply eq_true_iff_eq. rewrite !existsb_eqb_In, In_sort_keys.
  now apply In_distinct.
Qed.

(** The entry of a key in [groupby_size] is the number of its occurrences;
    a key that does not occur has no entry. *)
Lemma lookup_groupby_size (ltb : K -> K -> bool) (k : K) (keys : list K) :
  lookup eqb k (groupby_size eqb ltb keys)
  = if existsb (eqb k) keys then Some (count_key eqb k keys) else None.
Proof.
  unfold groupby_size. rewrite lookup_map, existsb_sort_distinct. reflexivity.
Qed.

End LookupFacts.

Lemma find_row_map (V : Type) (g : str -> list V) (w : str) (idx : list str) :
  find_row w idx (map g idx)
  = if existsb (str_eqb w) idx then Some (g w) else None.
Proof.
  induction idx as [|l idx IH]; simpl; [reflexivity|].
  destruct (str_eqb w l) eqn:E; simpl; [|exact IH].
  apply str_eqb_eq in E. now subst l.
Qed.

(** The heat map in full: the rows are labelled Monday to Sunday; the row of
    a weekday that occurs in the table holds, for every hour that occurs, the
    number of e-mails of that weekday and hour (0 when there is none); the row
    of a weekday that does not occur holds missing values. *)
Lemma heatmap_data_rows (t : table) :
  let keys := map (fun r => (Weekday r, Hour r)) t in
  index (heatmap_data t) = WEEKDAYS /\
  values (heatmap_data t)
  = map (fun w =>
           if existsb (str_eqb w) (map Weekday t)
           then map (fun h => Some (count_key wh_eqb (w, h) keys))
                  (columns (heatmap_data t))
           else map (fun _ => None) (columns (heatmap_data t)))
      WEEKDAYS.
Proof.
  intros keys. split; [reflexivity|].
  unfold heatmap_data, reindex, unstack. fold keys.
  cbn [index columns values].
  apply map_ext. intros w.
  rewrite find_row_map.
  set (cols := sort_keys Z.ltb _).
  assert (Hw : existsb (str_eqb w)
                 (sort_keys str_ltb
                    (distinct str_eqb
                       (map (fun e : str * Z * Z => fst (fst e))
                          (groupby_size wh_eqb wh_ltb keys))))
               = existsb (str_eqb w) (map Weekday t)).
  { rewrite (@existsb_sort_distinct _ _ str_eqb_eq _ _ _).
    apply eq_true_iff_eq. rewrite !(@existsb_eqb_In _ _ str_eqb_eq _ _).
    unfold groupby_size. rewrite map_map. cbn [fst].
    rewrite !in_map_iff. split.
    - intros (p & <- & Hp).
      apply In_sort_keys, In_distinct in Hp; [|exact wh_eqb_eq].
      unfold keys in Hp. apply in_map_iff in Hp. destruct Hp as (r & <- & Hr).
      exists r. auto.
    - intros (r & <- & Hr). exists (Weekday r, Hour r). split; [reflexivity|].
      apply In_sort_keys, In_distinct; [exact wh_eqb_eq|].
      unfold keys. apply in_map_iff. exists r. auto. }
  rewrite Hw. destruct (existsb (str_eqb w) (map Weekday t)); [|reflexivity].
  rewrite map_map. apply map_ext. intros h.
  rewrite (@lookup_groupby_size _ _ wh_eqb_eq _ _ _).
  destruct (existsb (wh_eqb (w, h)) keys) eqn:E; [reflexivity|].
  rewrite (@count_key_absent _ _ _ _ E). reflexivity.
Qed.

(** A table that is not empty misses a weekday whenever its e-mails fall on
    fewer than seven weekdays; the row of such a weekday holds no 0. *)
Lemma heatmap_absent_weekday (t : table) (w : str) :
  In w WEEKDAYS -> ~ In w (map Weekday t) ->
  In (map (fun _ => None) (columns (heatmap_data t))) (values (heatmap_data t)).
Proof.
  intros Hw Habs. rewrite (proj2 (heatmap_data_rows t)).
  apply in_map_iff. exists w. split; [|exact Hw].
  destruct (existsb (str_eqb w) (map Weekday t)) eqn:E; [|reflexivity].
  apply (@existsb_eqb_In _ _ str_eqb_eq _ _) in E. contradiction.
Qed.

(** ** Keywords in the removed text *)

Lemma re_sub_scan_select (ks : list str) (s : str) (skip : nat) (dot : bool) :
  re_sub_scan ks skip dot s = select (re_sub_keep ks skip dot s) s.
Proof.
  revert skip dot. induction s as [|c s IH]; intros skip dot; [reflexivity|].
  cbn [re_sub_scan re_sub_keep].
  destruct skip as [|n]; [|cbn [select]; apply IH].
  destruct (dot && negb (is_nl c)); [cbn [select]; apply IH|].
  destruct (first_alt ks (c :: s)) as [[|a k]|];
    [ | cbn [select]; apply IH | cbn [select]; f_equal; apply IH].
  destruct (negb (is_nl c)); [cbn [select]; apply IH|].
  destruct (first_alt (filter nonempty ks) (c :: s)) as [[|a k]|];
    cbn [select]; try (f_equal; apply IH); apply IH.
Qed.

Lemma scan_lines_select (ks : list str) (s : str) (dot : bool) :
  scan_lines ks dot s = select (keep_lines ks dot s) s.
Proof.
  revert dot. induction s as [|c s IH]; intros dot; [reflexivity|].
  cbn [scan_lines keep_lines].
  destruct (is_nl c); [cbn [select]; f_equal; apply IH|].
  destruct (dot || any_alt ks (c :: s)); cbn [select]; [|f_equal]; apply IH.
Qed.

Section NoLineFeedKeep.
Variable ks : list str.
Hypothesis ks_nl_free : forallb nl_free ks = true.

Lemma keep_is_keep_lines (s : str) :
  (forall dot, re_sub_keep ks 0 dot s = keep_lines ks dot s) /\
  (forall k, nl_free k = true -> prefix_ci k s = true ->
             re_sub_keep ks (length k) true s = keep_lines ks true s).
Proof.
  induction s as [|c s [IH1 IH2]].
  - split; [reflexivity|]. intros [|a k] _ _; reflexivity.
  - assert (H1 : forall dot, re_sub_keep ks 0 dot (c :: s) = keep_lines ks dot (c :: s)).
    { intros dot. cbn [re_sub_keep keep_lines].
      rewrite first_alt_any.
      destruct (is_nl c) eqn:Hc.
      - rewrite andb_false_r. cbn [negb].
        destruct (first_alt ks (c :: s)) as [[|a k]|] eqn:Hf.
        + destruct (first_alt (filter nonempty ks) (c :: s)) as [[|a k]|] eqn:Hg;
            try (now rewrite IH1).
          apply first_alt_some in Hg. destruct Hg as [Hin Hp].
          apply filter_In in Hin. destruct Hin as [Hin _].
          rewrite (@no_match_at_nl a c k s (@keyword_nl_free _ ks_nl_free _ Hin) Hc) in Hp.
          discriminate Hp.
        + apply first_alt_some in Hf. destruct Hf as [Hin Hp].
          rewrite (@no_match_at_nl a c k s (@keyword_nl_free _ ks_nl_free _ Hin) Hc) in Hp.
          discriminate Hp.
        + now rewrite IH1.
      - cbn [negb]. rewrite andb_true_r.
        destruct dot; cbn [orb]; [now rewrite IH1|].
        destruct (first_alt ks (c :: s)) as [[|a k]|] eqn:Hf.
        + now rewrite IH1.
        + apply first_alt_some in Hf. destruct Hf as [Hin Hp].
          pose proof (@keyword_nl_free _ ks_nl_free _ Hin) as Hk.
          simpl in Hp, Hk. apply andb_true_iff in Hp, Hk.
          f_equal. apply IH2; tauto.
        + now rewrite IH1. }
    split; [exact H1|].
    intros [|a k] Hk Hp; [apply H1|].
    cbn [length re_sub_keep]. cbn [keep_lines].
    simpl in Hp, Hk. apply andb_true_iff in Hp, Hk.
    destruct Hp as [Hac Hp], Hk as [Ha Hk].
    destruct (is_nl c) eqn:Hc.
    + rewrite (@match_nl a c Hac Hc) in Ha. discriminate Ha.
    + cbn [orb]. f_equal. apply IH2; assumption.
Qed.

(** A keyword read at the start of the cleaned text stands at the start of
    the text, on characters that are kept. *)
Lemma prefix_ci_kept (k s : str) :
  nl_free k = true ->
  prefix_ci k (scan_lines ks false s) = true ->
  prefix_ci k s = true /\
  forall j, (j < length k)%nat -> nth j (keep_lines ks false s) false = true.
Proof.
  revert k. induction s as [|c s IH]; intros [|a k] Hk;
    try (intros _; split; [reflexivity | simpl; lia]);
    try discriminate.
  - cbn [scan_lines keep_lines].
    destruct (is_nl c) eqn:Hc.
    + rewrite (@no_match_at_nl a c k _ Hk Hc). discriminate.
    + cbn [orb]. destruct (any_alt ks (c :: s)) eqn:E.
      * pose proof (scan_lines_dot ks s) as Hd.
        destruct (scan_lines ks true s) as [|c' s'']; [discriminate|].
        simpl in Hd. rewrite (@no_match_at_nl a c' k _ Hk Hd). discriminate.
      * simpl. simpl in Hk. intros H.
        apply andb_true_iff in H, Hk. destruct H as [-> H], Hk as [_ Hk].
        destruct (IH k Hk H) as [Hp Hkept].
        split; [exact Hp|]. intros [|j] Hj; [reflexivity|].
        apply Hkept. lia.
Qed.

(** A keyword read somewhere in the cleaned text stands somewhere in the
    text, on characters that are all kept. *)
Lemma occurrence_kept (k t : str) (dot : bool) :
  k <> [] -> nl_free k = true ->
  contains_ci k (scan_lines ks dot t) = true ->
  exists i, prefix_ci k (skipn i t) = true /\
            forall j, (i <= j < i + length k)%nat ->
                      nth j (keep_lines ks dot t) false = true.
Proof.
  intros Hne Hk. revert dot.
  assert (Hshift : forall (b : bool) (c : ascii) (t' : str) (fl : list bool),
             (exists i, prefix_ci k (skipn i t') = true /\
                forall j, (i <= j < i + length k)%nat -> nth j fl false = true) ->
             exists i, prefix_ci k (skipn i (c :: t')) = true /\
                forall j, (i <= j < i + length k)%nat ->
                          nth j (b :: fl) false = true).
  { intros b c t' fl (i & Hp & Hkept). exists (S i). split; [exact Hp|].
    intros [|j] Hj; [lia|]. simpl. apply Hkept. lia. }
  induction t as [|c t IH]; intros dot.
  - destruct k as [|a k]; [contradiction | discriminate].
  - cbn [scan_lines keep_lines].
    destruct (is_nl c) eqn:Hc.
    + cbn [contains_ci]. destruct k as [|a k']; [contradiction|].
      rewrite (@no_match_at_nl a c k' _ Hk Hc). cbn [orb].
      intros H. apply Hshift. now apply IH.
    + destruct (dot || any_alt ks (c :: t)) eqn:E.
      * intros H. apply Hshift. now apply IH.
      * apply orb_false_iff in E. destruct E as [-> E].
        cbn [contains_ci]. intros H. apply orb_true_iff in H.
        destruct H as [H | H]; [|apply Hshift; now apply IH].
        assert (Hs : c :: scan_lines ks false t = scan_lines ks false (c :: t)).
        { cbn [scan_lines]. rewrite Hc, E. reflexivity. }
        rewrite Hs in H. destruct (@prefix_ci_kept k (c :: t) Hk H) as [Hp Hkept].
        exists 0%nat. split; [exact Hp|].
        intros j Hj. specialize (Hkept j).
        cbn [keep_lines] in Hkept. rewrite Hc, E in Hkept. cbn [orb] in Hkept.
        apply Hkept. lia.
Qed.

End NoLineFeedKeep.

Lemma contains_ci_suffix (k p s : str) :
  contains_ci k s = true -> contains_ci k (p ++ s) = true.
Proof.
  induction p as [|c p IH]; [auto|]. intros H. simpl.
  rewrite (IH H). apply orb_true_r.
Qed.

Lemma contains_ci_prefix (k s q : str) :
  contains_ci k s = true -> contains_ci k (s ++ q) = true.
Proof.
  induction s as [|c s IH]; simpl.
  - rewrite orb_false_r. intros H. destruct k; [|discriminate].
    destruct q; reflexivity.
  - intros H. apply orb_true_iff in H. destruct H as [H | H].
    + change (c :: s ++ q) with ((c :: s) ++ q).
      rewrite (prefix_ci_app _ _ q H). reflexivity.
    + rewrite (IH H). apply orb_true_r.
Qed.

(** X19, the part of C10 that holds.  Let the cleanup keywords and the search
    keyword hold no line feed, and the search keyword hold none of the
    characters [. ^ $ * + ? { } [ ] \ | ( )].  If every place where the
    keyword stands in the original body has a character that the
    substitution removes (as it has when the keyword stands inside a closing
    phrase or after it), then the filter does not match the cleaned body. *)
Theorem literal_keyword_in_removed_text (ks : list str) (body k : str) (pat : regex) :
  forallb nl_free ks = true ->
  k <> [] -> nl_free k = true ->
  re_compile k = Some pat ->
  forallb (fun c => negb (is_meta c)) k = true ->
  (forall i, prefix_ci k (skipn i body) = true ->
             exists j, (i <= j < i + length k)%nat /\ removed ks body j) ->
  str_contains pat (Some (clean_body body ks)) = false.
Proof.
  intros Hks Hne Hk Hpat Hlit Hrem.
  rewrite (re_compile_literal _ Hlit) in Hpat. injection Hpat as <-.
  cbn [str_contains]. rewrite re_search_literal.
  destruct (contains_ci k (clean_body body ks)) eqn:E; [exfalso|reflexivity].
  unfold clean_body in E.
  destruct (strip_infix (re_sub_scan ks 0 false body)) as (p & q & Hpq).
  apply (contains_ci_prefix _ _ q), (contains_ci_suffix _ p) in E.
  rewrite <- Hpq in E.
  rewrite (proj1 (@scan_is_scan_lines ks Hks _)) in E.
  destruct (@occurrence_kept ks k body false Hne Hk E) as (i & Hp & Hkept).
  destruct (Hrem i Hp) as (j & Hj & Hr).
  specialize (Hkept j Hj). unfold removed in Hr.
  rewrite (proj1 (@keep_is_keep_lines ks Hks _)) in Hr.
  destruct (Nat.lt_ge_cases j (length (keep_lines ks false body))) as [Hlt | Hge].
  - rewrite (nth_indep _ true false Hlt) in Hr. congruence.
  - rewrite (nth_overflow _ false Hge) in Hkept. discriminate.
Qed.

Lemma literal_keyword_in_removed_text_witness :
  str_contains (map Lit (lit "regards"))
    (Some (clean_body (lit "Please review. Kind regards, A") BODY_CLEANUP_KEYWORDS))
  = false.
Proof.
  apply (@literal_keyword_in_removed_text BODY_CLEANUP_KEYWORDS
           (lit "Please review. Kind regards, A") (lit "regards"));
    try reflexivity; try discriminate.
  intros i Hp. exists 20%nat. split; [|reflexivity].
  assert (Hi : i = 20%nat).
  { destruct (Nat.lt_ge_cases i 30) as [Hlt | Hge].
    - do 30 (destruct i as [|i];
             [vm_compute in Hp; first [discriminate Hp | reflexivity]|]).
      exfalso. lia.
    - rewrite skipn_all2 in Hp by exact Hge. discriminate Hp. }
  subst i. simpl. lia.
Defined.

(* ================================================================== *)
(** * Further properties of the code *)

(** ** More on the filter engine *)

Lemma filter_andb (A : Type) (f g : A -> bool) (l : list A) :
  filter f (filter g l) = filter (fun x => g x && f x) l.
Proof.
  induction l as [|x l IH]; simpl; [reflexivity|].
  destruct (g x); simpl; [destruct (f x); now rewrite IH | exact IH].
Qed.

Lemma filter_twice (A : Type) (f : A -> bool) (l : list A) :
  filter f (filter f l) = filter f l.
Proof.
  apply filter_all. intros x Hx. apply filter_In in Hx. tauto.
Qed.

Lemma apply_filters_rows (df0 : table) (w : FilterSpec) (s : Session) :
  apply_filters df0 w = Some s ->
  df s = df0 /\
  (exists keep, filtered_df s = filter keep df0) /\
  forall r, In r (filtered_df s) <->
    In r df0 /\ in_date_range w r = true /\
    (sender_filter w <> [] -> isin (Sender r) (sender_filter w) = true) /\
    (keyword w <> [] ->
     exists pat, re_compile (keyword w) = Some pat /\ keyword_mask pat r = true).
Proof.
  unfold apply_filters. intros H.
  set (by_sender := match sender_filter w with
                    | [] => filter (in_date_range w) df0
                    | _ :: _ => filter (fun r => isin (Sender r) (sender_filter w))
                                  (filter (in_date_range w) df0)
                    end) in H.
  assert (Hs : (exists keep, by_sender = filter keep df0) /\
               forall r, In r by_sender <->
                 In r df0 /\ in_date_range w r = true /\
                 (sender_filter w <> [] -> isin (Sender r) (sender_filter w) = true)).
  { unfold by_sender. destruct (sender_filter w) as [|x l] eqn:E.
    - split; [eexists; reflexivity|]. intros r. rewrite filter_In.
      split; [intros [? ?]; repeat split; auto; intros C; now elim C | tauto].
    - split; [rewrite filter_andb; eexists; reflexivity|].
      intros r. rewrite !filter_In. split.
      + intros [[? ?] ?]. auto.
      + intros (? & ? & Hi). repeat split; auto. apply Hi. discriminate. }
  destruct Hs as [[keep Hkeep] Hin].
  destruct (keyword w) as [|c k] eqn:Ek.
  - injection H as <-. cbn [df filtered_df]. split; [reflexivity|].
    split; [now exists keep|]. intros r. rewrite Hin.
    split; [intros (? & ? & ?); repeat split; auto; intros C; now elim C | tauto].
  - destruct (re_compile (c :: k)) as [pat|] eqn:Ep; [|discriminate].
    injection H as <-. cbn [df filtered_df]. split; [reflexivity|].
    split; [rewrite Hkeep, filter_andb; eexists; reflexivity|].
    intros r. rewrite filter_In, Hin. split.
    + intros [(? & ? & ?) ?]. repeat split; auto. intros _. now exists pat.
    + intros (? & ? & ? & Hk). repeat split; auto.
      destruct Hk as (pat' & [= <-] & Hm); [discriminate | exact Hm].
Qed.

(** X1. The filters of lines 131-139 combine as a conjunction and only drop
    rows: a row is in the filtered table exactly when it is a row of [df]
    inside the date range, whose sender is selected when a selection is
    made, and which the keyword pattern matches when a keyword is given; the
    rows kept stay in the order of [df], and [df] is left as it was. *)
Theorem apply_filters_sound (df0 : table) (w : FilterSpec) (s : Session) :
  apply_filters df0 w = Some s ->
  df s = df0 /\
  (exists keep, filtered_df s = filter keep df0) /\
  forall r, In r (filtered_df s) <->
    In r df0 /\ in_date_range w r = true /\
    (sender_filter w <> [] -> isin (Sender r) (sender_filter w) = true) /\
    (keyword w <> [] ->
     exists pat, re_compile (keyword w) = Some pat /\ keyword_mask pat r = true).
Proof. apply apply_filters_rows. Qed.

Lemma apply_filters_sound_witness :
  let w := mkFilterSpec (mkDate 2024 3 1) (mkDate 2024 3 4) [lit "b@y.org"]
             (lit "lunch") [] in
  let s := mkSession sample_df
             (filter (fun r => isin (Sender r) [lit "b@y.org"]) sample_df) in
  apply_filters sample_df w = Some s /\ df s = sample_df.
Proof.
  intros w s.
  assert (E : apply_filters sample_df w = Some s) by (vm_compute; reflexivity).
  split; [exact E | exact (proj1 (apply_filters_sound _ _ E))].
Defined.

(** X2. Filtering is idempotent: the filters applied to the filtered table
    with the same widget values keep every row of it. *)
Theorem apply_filters_idempotent (df0 : table) (w : FilterSpec) (s : Session) :
  apply_filters df0 w = Some s ->
  apply_filters (filtered_df s) w = Some (mkSession (filtered_df s) (filtered_df s)).
Proof.
  intros H. destruct (apply_filters_rows _ _ H) as (_ & _ & Hin).
  unfold apply_filters in *. cbv zeta.
  assert (Hd : filter (in_date_range w) (filtered_df s) = filtered_df s).
  { apply filter_all. intros r Hr. apply Hin in Hr. tauto. }
  rewrite Hd.
  assert (Hk : forall l, l = filtered_df s ->
            match keyword w with
            | [] => Some (mkSession (filtered_df s) l)
            | _ :: _ =>
                match re_compile (keyword w) with
                | Some pat => Some (mkSession (filtered_df s)
                                      (filter (keyword_mask pat) l))
                | None => None
                end
            end = Some (mkSession (filtered_df s) (filtered_df s))).
  { intros l ->.
    destruct (keyword w) as [|c k] eqn:Ek; [reflexivity|].
    destruct (re_compile (c :: k)) as [pat|] eqn:Ep.
    - do 2 f_equal. apply filter_all. intros r Hr. apply Hin in Hr.
      destruct Hr as (_ & _ & _ & Hr).
      destruct Hr as (pat' & Hp & Hm); [discriminate|]. congruence.
    - discriminate H. }
  clear H. destruct (sender_filter w) as [|x l] eqn:E.
  - now apply Hk.
  - apply Hk. apply filter_all. intros r Hr. apply Hin in Hr.
    destruct Hr as (_ & _ & Hr & _). apply Hr. discriminate.
Qed.

Lemma apply_filters_idempotent_witness :
  let w := mkFilterSpec (mkDate 2024 3 1) (mkDate 2024 3 4) [lit "b@y.org"]
             (lit "lunch") [] in
  let s := mkSession sample_df
             (filter (fun r => isin (Sender r) [lit "b@y.org"]) sample_df) in
  apply_filters sample_df w = Some s /\
  apply_filters (filtered_df s) w = Some (mkSession (filtered_df s) (filtered_df s)).
Proof.
  intros w s.
  assert (E : apply_filters sample_df w = Some s) by (vm_compute; reflexivity).
  split; [exact E | exact (apply_filters_idempotent _ _ E)].
Defined.

(** X3. A date range whose start is after its end keeps no row, and the
    script goes on with the empty table. *)
Theorem inverted_range_keeps_nothing (df0 : table) (w : FilterSpec) (s : Session) :
  date_ltb (end_date w) (start_date w) = true ->
  apply_filters df0 w = Some s ->
  filtered_df s = [].
Proof.
  intros Hinv H.
  destruct (filtered_df s) as [|r l] eqn:E; [reflexivity|]. exfalso.
  destruct (apply_filters_rows _ _ H) as (_ & _ & Hin).
  assert (Hr : In r (filtered_df s)) by (rewrite E; now left).
  apply Hin in Hr. destruct Hr as (_ & Hr & _).
  unfold in_date_range in Hr. apply andb_true_iff in Hr. destruct Hr as [H1 H2].
  pose proof (date_leb_trans _ _ _ H1 H2) as H3.
  apply date_leb_iff in H3.
  rewrite date_ltb_iff in Hinv.
  destruct H3 as [H3 | H3].
  - rewrite date_ltb_iff in H3. lia.
  - rewrite H3 in Hinv. lia.
Qed.

Lemma inverted_range_keeps_nothing_witness :
  let w := mkFilterSpec (mkDate 2024 3 5) (mkDate 2024 3 1) [] [] [] in
  let s := mkSession sample_df [] in
  date_ltb (end_date w) (start_date w) = true /\
  apply_filters sample_df w = Some s /\ filtered_df s = [].
Proof.
  intros w s.
  assert (Hinv : date_ltb (end_date w) (start_date w) = true) by reflexivity.
  assert (E : apply_filters sample_df w = Some s) by (vm_compute; reflexivity).
  split; [exact Hinv|]. split; [exact E|].
  exact (@inverted_range_keeps_nothing sample_df w s Hinv E).
Defined.

(** ** More on the normalizer *)

Lemma in_range_bounds (lo hi v : Z) (r : option (Z * str)) (s : str) :
  in_range lo hi r = Some (v, s) -> (lo <= v <= hi)%Z.
Proof.
  unfold in_range. destruct r as [[v' s']|]; [|discriminate].
  destruct ((lo <=? v') && (v' <=? hi))%Z eqn:E; [|discriminate].
  intros [= -> ->]. apply andb_true_iff in E. lia.
Qed.

Lemma field_d_bounds (s s' : str) (v : Z) :
  field_d s = Some (v, s') -> (1 <= v <= 31)%Z.
Proof.
  unfold field_d. intros H.
  assert (Hr : exists lo hi r, in_range lo hi r = Some (v, s')
                               /\ (1 <= lo)%Z /\ (hi <= 31)%Z).
  { destruct s as [|a [|c s0]].
    - exists 1%Z, 31%Z. eexists. split; [exact H | lia].
    - exists 1%Z, 31%Z. eexists.
      destruct a as [[] [] [] [] [] [] [] []]; (split; [exact H | lia]).
    - destruct (Ascii.eqb a " "%char) eqn:Ea.
      + apply Ascii.eqb_eq in Ea. subst a.
        destruct (is_digit c); [|discriminate].
        exists 1%Z, 9%Z. destruct s0 as [|c' s1].
        * eexists. split; [exact H | lia].
        * destruct (is_digit c'); [discriminate|].
          eexists. split; [exact H | lia].
      + exists 1%Z, 31%Z. eexists. split; [|lia].
        destruct a as [[] [] [] [] [] [] [] []]; try exact H.
        discriminate Ea. }
  destruct Hr as (lo & hi & r & Hr & Hlo & Hhi).
  apply in_range_bounds in Hr. lia.
Qed.

Lemma hour24_bounds (h12 : Z) (pm : bool) :
  (1 <= h12 <= 12)%Z -> (0 <= hour24 h12 pm <= 23)%Z.
Proof.
  unfold hour24. intros H.
  destruct pm; destruct (Z.eqb_spec h12 12); lia.
Qed.

Lemma to_datetime_bounds (text : str) (t : datetime) :
  to_datetime text = Some t ->
  (1 <= month (dt_date t) <= 12 /\
   1 <= day (dt_date t) <= days_in_month (year (dt_date t)) (month (dt_date t)) /\
   0 <= hour t <= 23 /\ 0 <= minute t <= 59 /\ 0 <= second t <= 59)%Z.
Proof.
  unfold to_datetime, obind. intros H.
  destruct (field_d text) as [[d s1]|] eqn:Hd; [|discriminate].
  destruct (expect "/" s1) as [s2|]; [|discriminate].
  destruct (field_12 s2) as [[m s3]|] eqn:Hm; [|discriminate].
  destruct (expect "/" s3) as [s4|]; [|discriminate].
  destruct (field_Y s4) as [[y s5]|]; [|discriminate].
  destruct (spaces1 s5) as [s6|]; [|discriminate].
  destruct (field_12 s6) as [[i s7]|] eqn:Hi; [|discriminate].
  destruct (expect ":" s7) as [s8|]; [|discriminate].
  destruct (field_59 s8) as [[mi s9]|] eqn:Hmi; [|discriminate].
  destruct (expect ":" s9) as [s10|]; [|discriminate].
  destruct (field_59 s10) as [[se s11]|] eqn:Hse; [|discriminate].
  destruct (spaces1 s11) as [s12|]; [|discriminate].
  destruct (field_p s12) as [[pm s13]|]; [|discriminate].
  destruct s13; [|discriminate].
  destruct ((1 <=? y) && (d <=? days_in_month y m))%Z eqn:Hv; [|discriminate].
  cbn [andb] in H.
  destruct (in_timestamp_bounds _); [|discriminate].
  injection H as <-. cbn [dt_date month day year hour minute second].
  apply field_d_bounds in Hd.
  apply in_range_bounds in Hm, Hi, Hmi, Hse.
  apply andb_true_iff in Hv. destruct Hv as [_ Hv]. apply Z.leb_le in Hv.
  pose proof (hour24_bounds pm Hi). lia.
Qed.

(** X4. A date that the format accepts is a real moment of the calendar: the
    month is 1 to 12, the day exists in that month of that year, the hour is
    0 to 23 and the minute and second are 0 to 59. *)
Theorem to_datetime_valid (text : str) (t : datetime) :
  to_datetime text = Some t ->
  (1 <= month (dt_date t) <= 12 /\
   1 <= day (dt_date t) <= days_in_month (year (dt_date t)) (month (dt_date t)) /\
   0 <= hour t <= 23 /\ 0 <= minute t <= 59 /\ 0 <= second t <= 59)%Z.
Proof. apply to_datetime_bounds. Qed.

Lemma to_datetime_valid_witness :
  (0 <= hour (mkDateTime (mkDate 2024 3 5) 23 5 9) <= 23)%Z.
Proof.
  refine (proj1 (proj2 (proj2 (@to_datetime_valid
            (lit "05/03/2024 11:05:09 PM") _ _)))).
  vm_compute. reflexivity.
Defined.

Lemma day_name_weekday (d : date) : In (day_name d) WEEKDAYS.
Proof.
  unfold day_name, weekday.
  pose proof (Z.mod_pos_bound (toordinal d + 6) 7 ltac:(lia)) as H.
  set (k := ((toordinal d + 6) mod 7)%Z) in *.
  assert (Hk : (Z.to_nat k < 7)%nat) by lia.
  apply nth_In. exact Hk.
Qed.

Lemma In_normalize (raw : list RawRow) (row : Row) :
  In row (normalize raw) <-> exists r, In r raw /\ normalize_row r = Some row.
Proof.
  induction raw as [|r raw IH]; simpl.
  - split; [contradiction | intros (r & [] & _)].
  - destruct (normalize_row r) as [row'|] eqn:E; simpl; rewrite IH; split.
    + intros [<- | (r' & Hin & Hr)]; [exists r; auto | exists r'; auto].
    + intros (r' & [<- | Hin] & Hr); [left; congruence | right; exists r'; auto].
    + intros (r' & Hin & Hr). exists r'; auto.
    + intros (r' & [<- | Hin] & Hr); [congruence | exists r'; auto].
Qed.

(** X5. Every row of the normalized table comes from a row of the file whose
    four required cells are present and whose date parses; its subject and
    sender are those of the file, its body is the cleaned body, and its
    calendar columns agree with its date: [DateOnly] is the day of [Date],
    [Hour] is its hour and lies in 0..23, and [Weekday] is one of the seven
    English day names. *)
Theorem normalize_rows (raw : list RawRow) (row : Row) :
  In row (normalize raw) ->
  exists r su se da bo,
    In r raw /\
    raw_Subject r = Some su /\ raw_Sender r = Some se /\
    raw_Date r = Some da /\ raw_Body r = Some bo /\
    to_datetime da = Some (Date row) /\
    Subject row = Some su /\ Sender row = Some se /\
    Body row = Some (clean_body bo BODY_CLEANUP_KEYWORDS) /\
    DateOnly row = dt_date (Date row) /\
    Hour row = hour (Date row) /\ (0 <= Hour row <= 23)%Z /\
    In (Weekday row) WEEKDAYS.
Proof.
  intros H. apply In_normalize in H. destruct H as (r & Hin & Hr).
  unfold normalize_row in Hr.
  destruct (raw_Subject r) as [su|] eqn:E1; [|discriminate].
  destruct (raw_Sender r) as [se|] eqn:E2; [|discriminate].
  destruct (raw_Date r) as [da|] eqn:E3; [|discriminate].
  destruct (raw_Body r) as [bo|] eqn:E4; [|discriminate].
  destruct (to_datetime da) as [t|] eqn:E5; [|discriminate].
  injection Hr as <-. cbn.
  exists r, su, se, da, bo.
  pose proof (to_datetime_bounds _ E5) as Hb.
  repeat split; auto; try tauto. apply day_name_weekday.
Qed.

Lemma normalize_rows_witness :
  exists r su, In r [scenario_raw] /\ raw_Subject r = Some su.
Proof.
  assert (H : In (nth 0 scenario_df (day_row 1)) (normalize [scenario_raw]))
    by (vm_compute; left; reflexivity).
  destruct (normalize_rows _ _ H) as (r & su & _ & _ & _ & Hin & Hsu & _).
  exists r, su. split; assumption.
Defined.

(** ** More on body cleaning *)

Lemma any_alt_false (ks : list str) (k s : str) :
  any_alt ks s = false -> In k ks -> prefix_ci k s = false.
Proof.
  unfold any_alt. intros H Hin.
  destruct (prefix_ci k s) eqn:E; [|reflexivity].
  assert (existsb (fun k => prefix_ci k s) ks = true)
    by (apply existsb_exists; exists k; auto).
  congruence.
Qed.

Lemma no_hit_contains (ks : list str) (k s : str) :
  In k ks -> k <> [] -> nl_free k = true -> no_hit ks s ->
  contains_ci k s = false.
Proof.
  intros Hin Hne Hk. destruct k as [|a k']; [contradiction|].
  induction s as [|c s IH]; [reflexivity|].
  intros [Hc Hs]. cbn [contains_ci]. rewrite (IH Hs), orb_false_r.
  destruct Hc as [Hc | Hc].
  - exact (@no_match_at_nl a c k' s Hk Hc).
  - exact (@any_alt_false ks _ _ Hc Hin).
Qed.

Lemma clean_body_no_hit (ks : list str) (text : str) :
  forallb nl_free ks = true -> no_hit ks (clean_body text ks).
Proof.
  intros Hks. unfold clean_body.
  rewrite (proj1 (@scan_is_scan_lines ks Hks _)).
  destruct (strip_infix (scan_lines ks false text)) as (p & q & Hpq).
  pose proof (@scan_lines_no_hit ks Hks false text) as H.
  rewrite Hpq in H. apply no_hit_suffix, no_hit_prefix in H. exact H.
Qed.

(** X6. When no cleanup keyword holds a line feed, the cleaned body holds
    none of the keywords any more, in any case of the letters. *)
Theorem clean_body_removes_keywords (ks : list str) (text k : str) :
  forallb nl_free ks = true -> In k ks -> k <> [] ->
  contains_ci k (clean_body text ks) = false.
Proof.
  intros Hks Hin Hne. apply (@no_hit_contains ks); auto.
  - exact (proj1 (forallb_forall _ _) Hks k Hin).
  - now apply clean_body_no_hit.
Qed.

Lemma clean_body_removes_keywords_witness :
  contains_ci (lit "thanks")
    (clean_body (lit "Many THANKS for the report") BODY_CLEANUP_KEYWORDS) = false.
Proof.
  apply clean_body_removes_keywords;
    [reflexivity | simpl; tauto | discriminate].
Defined.

Lemma contains_ci_tail (k : str) (c : ascii) (s : str) :
  contains_ci k (c :: s) = false ->
  prefix_ci k (c :: s) = false /\ contains_ci k s = false.
Proof. cbn [contains_ci]. intros H. now apply orb_false_iff in H. Qed.

Lemma first_alt_none (ks : list str) (s : str) :
  (forall k, In k ks -> prefix_ci k s = false) -> first_alt ks s = None.
Proof.
  induction ks as [|k ks IH]; simpl; intros H; [reflexivity|].
  rewrite (H k (or_introl eq_refl)). apply IH. auto.
Qed.

Lemma re_sub_scan_untouched (ks : list str) (text : str) :
  (forall k, In k ks -> contains_ci k text = false) ->
  re_sub_scan ks 0 false text = text.
Proof.
  induction text as [|c s IH]; intros H; [reflexivity|].
  cbn [re_sub_scan andb].
  rewrite first_alt_none.
  - f_equal. apply IH. intros k Hk. exact (proj2 (@contains_ci_tail k c s (H k Hk))).
  - intros k Hk. exact (proj1 (@contains_ci_tail k c s (H k Hk))).
Qed.

(** X7. A body in which no cleanup keyword occurs is only stripped of the
    white space around it; so is every body when the keyword list is empty. *)
Theorem clean_body_without_keyword (ks : list str) (text : str) :
  (forall k, In k ks -> contains_ci k text = false) ->
  clean_body text ks = strip text.
Proof.
  intros H. unfold clean_body. now rewrite re_sub_scan_untouched.
Qed.

Lemma clean_body_without_keyword_witness :
  clean_body (lit "  See you at noon ") BODY_CLEANUP_KEYWORDS
  = strip (lit "  See you at noon ").
Proof.
  apply clean_body_without_keyword.
  intros k Hk. simpl in Hk.
  repeat (destruct Hk as [<- | Hk]; [vm_compute; reflexivity|]).
  contradiction.
Defined.

Lemma scan_lines_dot_line (ks : list str) (s : str) :
  nl_free s = true -> scan_lines ks true s = [].
Proof.
  induction s as [|c s IH]; [reflexivity|]. simpl. intros H.
  apply andb_true_iff in H. destruct H as [Hc H].
  apply negb_true_iff in Hc. rewrite Hc. now apply IH.
Qed.

Lemma forallb_map_comp (A B : Type) (f : B -> bool) (g : A -> B) (l : list A) :
  forallb f (map g l) = forallb (fun x => f (g x)) l.
Proof. induction l as [|x l IH]; simpl; [reflexivity | now rewrite IH]. Qed.

Lemma scan_lines_quiet (ks : list str) (pre m : str) :
  forallb (fun i => negb (any_alt ks (skipn i (pre ++ m)))) (seq 0 (length pre))
  = true ->
  scan_lines ks false (pre ++ m) = pre ++ scan_lines ks false m.
Proof.
  induction pre as [|c pre IH]; [reflexivity|].
  cbn [length seq forallb]. intros H. apply andb_true_iff in H.
  destruct H as [H0 H]. cbn [skipn] in H0. apply negb_true_iff in H0.
  rewrite <- seq_shift, forallb_map_comp in H. cbn [skipn app] in H.
  change ((c :: pre) ++ m) with (c :: pre ++ m) in *.
  cbn [scan_lines]. rewrite H0. cbn [orb].
  destruct (is_nl c); cbn [app]; f_equal; now apply IH.
Qed.

(** X8. The cut is greedy: when a keyword matches at some place of a line
    and none matches before that place, the cleaned body is the text before
    that place, stripped; all that follows on the line is lost with the
    keyword. *)
Theorem clean_body_truncates (ks : list str) (pre m : str) :
  forallb nl_free ks = true ->
  nl_free m = true ->
  any_alt ks m = true ->
  forallb (fun i => negb (any_alt ks (skipn i (pre ++ m)))) (seq 0 (length pre))
  = true ->
  clean_body (pre ++ m) ks = strip pre.
Proof.
  intros Hks Hm Hhit Hpre. unfold clean_body.
  rewrite (proj1 (@scan_is_scan_lines ks Hks _)).
  rewrite (@scan_lines_quiet ks pre m Hpre).
  destruct m as [|c m']; [now rewrite app_nil_r|].
  cbn [scan_lines]. rewrite Hhit. cbn [orb].
  simpl in Hm. apply andb_true_iff in Hm. destruct Hm as [Hc Hm].
  apply negb_true_iff in Hc. rewrite Hc.
  rewrite (@scan_lines_dot_line ks m' Hm). now rewrite app_nil_r.
Qed.

Lemma clean_body_truncates_witness :
  clean_body (lit "Please review. " ++ lit "Kind regards, A. See the attachment")
    BODY_CLEANUP_KEYWORDS
  = strip (lit "Please review. ").
Proof.
  apply clean_body_truncates; reflexivity.
Defined.

Lemma rstrip_strip (s : str) : rstrip (strip s) = strip s.
Proof.
  unfold strip, lstrip, rstrip.
  set (y := rev (dropwhile is_space (rev s))).
  assert (Hy : match rev y with [] => True | c :: _ => is_space c = false end).
  { unfold y. rewrite rev_involutive. apply dropwhile_head. }
  destruct (dropwhile_suffix is_space y) as [q Hq].
  set (u := dropwhile is_space y) in *.
  destruct u as [|c u'] eqn:Eu; [reflexivity|].
  rewrite dropwhile_fixed; [apply rev_involutive|].
  rewrite Hq, rev_app_distr in Hy.
  destruct (rev (c :: u')) as [|c' r] eqn:Er; [|exact Hy].
  apply (f_equal (@length _)) in Er. rewrite length_rev in Er. discriminate Er.
Qed.

(** X9. A cleaned body neither starts nor ends with white space, whatever the
    text and the keywords. *)
Theorem clean_body_stripped (text : str) (ks : list str) :
  (forall c s, clean_body text ks = c :: s -> is_space c = false) /\
  (forall c s, clean_body text ks = s ++ [c] -> is_space c = false).
Proof.
  unfold clean_body. set (S0 := re_sub_scan ks 0 false text). split.
  - intros c s H. pose proof (dropwhile_head is_space (rstrip S0)) as Hh.
    unfold strip, lstrip in H. rewrite H in Hh. exact Hh.
  - intros c s H. pose proof (rstrip_strip S0) as Hr.
    unfold rstrip in Hr at 1. rewrite H in Hr.
    rewrite rev_app_distr in Hr. cbn [rev app] in Hr.
    destruct (is_space c) eqn:E; [|reflexivity].
    cbn [dropwhile] in Hr. rewrite E in Hr.
    apply (f_equal (@length _)) in Hr.
    rewrite length_rev, length_app in Hr. cbn [length] in Hr.
    destruct (dropwhile_suffix is_space (rev s)) as [q Hq].
    apply (f_equal (@length _)) in Hq. rewrite length_rev, length_app in Hq. lia.
Qed.

(** ** Tokens and rankings *)

Lemma split_ws_words (s w : str) :
  In w (split_ws s) ->
  w <> [] /\ forall c, In c w -> In c s /\ is_space c = false.
Proof.
  revert w. induction s as [|c s IH]; intros w; [contradiction|].
  cbn [split_ws].
  destruct (is_space c) eqn:Hc.
  - intros H. destruct (IH w H) as [Hne Hw]. split; [exact Hne|].
    intros x Hx. destruct (Hw x Hx). split; [now right | assumption].
  - destruct s as [|c' s'].
    + intros [<- | []]. split; [discriminate|].
      intros x [<- | []]. split; [now left | exact Hc].
    + destruct (is_space c') eqn:Hc'.
      * intros [<- | H].
        -- split; [discriminate|]. intros x [<- | []]. split; [now left | exact Hc].
        -- destruct (IH w H) as [Hne Hw]. split; [exact Hne|].
           intros x Hx. destruct (Hw x Hx). split; [now right | assumption].
      * destruct (split_ws (c' :: s')) as [|w0 ws] eqn:E.
        -- intros [<- | []]. split; [discriminate|].
           intros x [<- | []]. split; [now left | exact Hc].
        -- intros [<- | H].
           ++ split; [discriminate|].
              destruct (IH w0 (or_introl eq_refl)) as [_ Hw].
              intros x [<- | Hx]; [split; [now left | exact Hc]|].
              destruct (Hw x Hx). split; [now right | assumption].
           ++ destruct (IH w (or_intror H)) as [Hne Hw]. split; [exact Hne|].
              intros x Hx. destruct (Hw x Hx). split; [now right | assumption].
Qed.

Lemma lower_alnum (c : ascii) :
  is_alnum_ascii (lower c) = true -> is_lower_alnum (lower c) = true.
Proof.
  destruct c as [[] [] [] [] [] [] [] []]; vm_compute; intros H;
    try discriminate H; reflexivity.
Qed.

Lemma existsb_str_eqb (w : str) (l : list str) :
  existsb (str_eqb w) l = true <-> In w l.
Proof. apply existsb_eqb_In. exact str_eqb_eq. Qed.

Lemma tokenize_words (stop : list str) (text word : str) :
  In word (tokenize stop text) ->
  (2 < length word)%nat /\ ~ In word stop /\
  forall c, In c word -> is_lower_alnum c = true.
Proof.
  unfold tokenize. intros H. apply filter_In in H. destruct H as [Hw Hf].
  apply andb_true_iff in Hf. destruct Hf as [Hlen Hstop].
  apply Nat.ltb_lt in Hlen. apply negb_true_iff in Hstop.
  split; [exact Hlen|]. split.
  - intros Hin. apply existsb_str_eqb in Hin. congruence.
  - intros c Hc. apply split_ws_words in Hw. destruct Hw as [_ Hw].
    destruct (Hw c Hc) as [Hin Hsp].
    apply filter_In in Hin. destruct Hin as [Hin Hp].
    rewrite Hsp, orb_false_r in Hp.
    unfold str_lower in Hin. apply in_map_iff in Hin.
    destruct Hin as (c0 & <- & _). now apply lower_alnum.
Qed.

(** X10. A token of a subject line is longer than two characters, is made of
    digits and the letters a to z only, and is no stop word: neither one of
    the built-in stop words nor a word that the user typed in the stop-word
    box, however it was spaced or capitalised there. *)
Theorem tokenize_tokens (STOPWORDS : list str) (w : FilterSpec) (text word : str) :
  In word (tokenize (ALL_STOPWORDS STOPWORDS w) text) ->
  (2 < length word)%nat /\
  (forall c, In c word -> is_lower_alnum c = true) /\
  ~ In word STOPWORDS /\
  forall typed, In typed (split_comma (custom_stopwords_input w)) ->
                strip typed <> [] -> word <> str_lower (strip typed).
Proof.
  intros H. apply tokenize_words in H. destruct H as (Hlen & Hstop & Hch).
  split; [exact Hlen|]. split; [exact Hch|]. split.
  - intros Hin. apply Hstop. unfold ALL_STOPWORDS. apply in_or_app. now left.
  - intros typed Hin Hne ->. apply Hstop. unfold ALL_STOPWORDS.
    apply in_or_app. right. apply in_map_iff. exists typed. split; [reflexivity|].
    apply filter_In. split; [exact Hin|].
    destruct (strip typed); [contradiction | reflexivity].
Qed.

Lemma tokenize_tokens_witness :
  (2 < length (lit "invoice"))%nat /\ lit "invoice" <> lit "overdue".
Proof.
  assert (H : In (lit "invoice")
                (tokenize (ALL_STOPWORDS [lit "the"]
                             (mkFilterSpec (mkDate 2024 3 1) (mkDate 2024 3 5) [] []
                                (lit "re, Overdue ")))
                   (lit "RE: The overdue INVOICE #42")))
    by (vm_compute; left; reflexivity).
  destruct (tokenize_tokens _ _ _ _ H) as (Hlen & _ & _ & Htyped).
  split; [exact Hlen|].
  apply (Htyped (lit " Overdue ")); [vm_compute; tauto | vm_compute; discriminate].
Defined.

Section CounterFacts.
Variable K : Type.
Variable eqb : K -> K -> bool.
Hypothesis eqb_eq : forall a b, eqb a b = true <-> a = b.

Lemma eqb_refl (k : K) : eqb k k = true.
Proof. now apply eqb_eq. Qed.

Lemma count_key_cons (k x : K) (l : list K) :
  count_key eqb k (x :: l)
  = ((if eqb k x then 1 else 0) + count_key eqb k l)%Z.
Proof.
  unfold count_key. simpl. destruct (eqb k x); simpl length; lia.
Qed.

Lemma lookup_counter_add (x k : K) (cnt : list (K * Z)) :
  lookup eqb x (counter_add eqb k cnt)
  = if eqb x k
    then Some (match lookup eqb x cnt with Some n => n + 1 | None => 1 end)%Z
    else lookup eqb x cnt.
Proof.
  induction cnt as [|[k' n] cnt IH]; simpl.
  - destruct (eqb x k); reflexivity.
  - destruct (eqb k k') eqn:Ek; simpl.
    + apply eqb_eq in Ek. subst k'. destruct (eqb x k); reflexivity.
    + destruct (eqb x k') eqn:Ex.
      * destruct (eqb x k) eqn:Exk; [|reflexivity].
        apply eqb_eq in Ex, Exk. subst. rewrite eqb_refl in Ek. discriminate.
      * exact IH.
Qed.

Lemma lookup_counter_update (x : K) (ks : list K) (cnt : list (K * Z)) :
  lookup eqb x (counter_update eqb cnt ks)
  = match lookup eqb x cnt with
    | Some n => Some (n + count_key eqb x ks)%Z
    | None => if existsb (eqb x) ks then Some (count_key eqb x ks) else None
    end.
Proof.
  unfold counter_update. revert cnt.
  induction ks as [|k ks IH]; intros cnt; cbn [fold_left existsb].
  - unfold count_key. simpl. destruct (lookup eqb x cnt); [f_equal; lia | reflexivity].
  - rewrite IH, lookup_counter_add, count_key_cons.
    destruct (eqb x k); cbn [orb].
    + destruct (lookup eqb x cnt); f_equal; lia.
    + destruct (lookup eqb x cnt); [f_equal; lia|].
      destruct (existsb (eqb x) ks); reflexivity.
Qed.

End CounterFacts.

(** X11. A [Counter] filled from the empty one holds, for every key that was
    added, the number of times it was added, and holds nothing for any other
    key. *)
Theorem counter_update_counts (K : Type) (eqb : K -> K -> bool) (x : K)
  (ks : list K) :
  (forall a b, eqb a b = true <-> a = b) ->
  lookup eqb x (counter_update eqb [] ks)
  = if existsb (eqb x) ks then Some (count_key eqb x ks) else None.
Proof. intros Heq. now rewrite lookup_counter_update. Qed.

Lemma counter_update_counts_witness :
  lookup str_eqb (lit "invoice")
    (counter_update str_eqb [] [lit "invoice"; lit "overdue"; lit "invoice"])
  = Some 2%Z.
Proof.
  exact (@counter_update_counts _ str_eqb (lit "invoice")
           [lit "invoice"; lit "overdue"; lit "invoice"] str_eqb_eq).
Defined.

Section RankFacts.
Variable K : Type.

Lemma insert_desc_perm (e : K * Z) (l : list (K * Z)) :
  Permutation (insert_desc e l) (e :: l).
Proof.
  induction l as [|x l IH]; simpl; [reflexivity|].
  destruct (snd x <=? snd e)%Z; [reflexivity|].
  rewrite IH. apply perm_swap.
Qed.

Lemma sort_desc_perm (l : list (K * Z)) : Permutation (sort_desc l) l.
Proof.
  unfold sort_desc. induction l as [|e l IH]; simpl; [reflexivity|].
  rewrite insert_desc_perm. now constructor.
Qed.

Lemma insert_desc_sorted (e : K * Z) (l : list (K * Z)) :
  StronglySorted (@count_ge K) l -> StronglySorted (@count_ge K) (insert_desc e l).
Proof.
  induction l as [|x l IH]; simpl; intros Hs.
  - repeat constructor.
  - apply StronglySorted_inv in Hs. destruct Hs as [Hl Hx].
    destruct (Z.leb_spec (snd x) (snd e)) as [Hle | Hgt].
    + constructor; [now constructor|].
      constructor; [exact Hle|].
      eapply Forall_impl; [|exact Hx]. unfold count_ge. intros a Ha. lia.
    + constructor; [now apply IH|].
      apply Forall_forall. intros a Ha.
      apply (Permutation_in _ (insert_desc_perm e l)) in Ha.
      destruct Ha as [<- | Ha]; [unfold count_ge; lia|].
      exact (proj1 (Forall_forall _ _) Hx a Ha).
Qed.

Lemma sort_desc_sorted (l : list (K * Z)) : StronglySorted (@count_ge K) (sort_desc l).
Proof.
  unfold sort_desc. induction l as [|e l IH]; simpl; [constructor|].
  now apply insert_desc_sorted.
Qed.

Lemma sorted_app (l1 l2 : list (K * Z)) :
  StronglySorted (@count_ge K) (l1 ++ l2) ->
  StronglySorted (@count_ge K) l1 /\
  forall a b, In a l1 -> In b l2 -> count_ge a b.
Proof.
  induction l1 as [|x l1 IH]; simpl; intros Hs.
  - split; [constructor | contradiction].
  - apply StronglySorted_inv in Hs. destruct Hs as [Hl Hx].
    destruct (IH Hl) as [Hs1 H12]. split.
    + constructor; [exact Hs1|].
      apply Forall_forall. intros a Ha.
      apply (proj1 (Forall_forall _ _) Hx). apply in_or_app. now left.
    + intros a b [<- | Ha] Hb; [|now apply H12].
      apply (proj1 (Forall_forall _ _) Hx). apply in_or_app. now right.
Qed.

(** X12. A ranking cut at [n] entries ([most_common(n)], [value_counts()
    .head(n)], [sorted(..., reverse=True)[:n]]) has at most [n] entries, in
    the order of their counts, largest first; each is an entry of the
    counter; no entry left out has a larger count than one that is shown; and
    a counter of at most [n] entries is shown whole. *)
Theorem most_common_ranked (n : nat) (cnt : list (K * Z)) :
  (length (most_common n cnt) <= n)%nat /\
  StronglySorted (@count_ge K) (most_common n cnt) /\
  (forall e, In e (most_common n cnt) -> In e cnt) /\
  (forall e e', In e cnt -> ~ In e (most_common n cnt) ->
                In e' (most_common n cnt) -> (snd e <= snd e')%Z) /\
  ((length cnt <= n)%nat -> forall e, In e cnt -> In e (most_common n cnt)).
Proof.
  unfold most_common.
  pose proof (sort_desc_sorted cnt) as Hs.
  pose proof (sort_desc_perm cnt) as Hp.
  rewrite <- (firstn_skipn n (sort_desc cnt)) in Hs.
  apply sorted_app in Hs. destruct Hs as [Hs1 H12].
  split; [apply firstn_le_length|]. split; [exact Hs1|]. split; [|split].
  - intros e He. apply (Permutation_in _ Hp).
    rewrite <- (firstn_skipn n (sort_desc cnt)). apply in_or_app. now left.
  - intros e e' He Hnot He'.
    apply (Permutation_in _ (Permutation_sym Hp)) in He.
    rewrite <- (firstn_skipn n (sort_desc cnt)) in He.
    apply in_app_or in He. destruct He as [He | He]; [contradiction|].
    exact (H12 e' e He' He).
  - intros Hlen e He.
    rewrite firstn_all2.
    + exact (Permutation_in _ (Permutation_sym Hp) He).
    + rewrite (Permutation_length Hp). exact Hlen.
Qed.

End RankFacts.

Lemma most_common_ranked_witness :
  (snd (lit "c", 1%Z) <= snd (lit "b", 5%Z))%Z.
Proof.
  refine (proj1 (proj2 (proj2 (proj2 (@most_common_ranked str 2
            [(lit "a", 3%Z); (lit "b", 5%Z); (lit "c", 1%Z)])))) _ _ _ _ _).
  - simpl. tauto.
  - vm_compute. intros [H | [H | []]]; discriminate H.
  - vm_compute. tauto.
Defined.

(** ** More on daily counts and bursts *)

Section GroupTotals.
Variable K : Type.
Variables eqb ltb : K -> K -> bool.
Hypothesis eqb_eq : forall a b, eqb a b = true <-> a = b.

Lemma NoDup_distinct (l : list K) : NoDup (distinct eqb l).
Proof.
  induction l as [|k l IH]; simpl; [constructor|].
  destruct (existsb (eqb k) l) eqn:E; [exact IH|].
  constructor; [|exact IH].
  intros H. apply In_distinct in H; [|exact eqb_eq].
  apply (@existsb_eqb_In _ _ eqb_eq _ _) in H. congruence.
Qed.

Lemma insert_sorted_perm (k : K) (l : list K) :
  Permutation (insert_sorted ltb k l) (k :: l).
Proof.
  induction l as [|x l IH]; simpl; [reflexivity|].
  destruct (ltb k x); [reflexivity|]. rewrite IH. apply perm_swap.
Qed.

Lemma sort_keys_perm (l : list K) : Permutation (sort_keys ltb l) l.
Proof.
  induction l as [|k l IH]; simpl; [reflexivity|].
  rewrite insert_sorted_perm. now constructor.
Qed.

Lemma sum_counts (D l : list K) :
  NoDup D -> (forall x, In x l -> In x D) ->
  Zsum (map (fun k => count_key eqb k l) D) = Z.of_nat (length l).
Proof.
  intros HD. induction l as [|x l IH]; intros Hin.
  - unfold count_key. simpl. clear. induction D; simpl; [reflexivity | lia].
  - assert (Hx : In x D) by (apply Hin; now left).
    assert (Hl : forall y, In y l -> In y D) by (intros y Hy; apply Hin; now right).
    specialize (IH Hl).
    assert (Hone : forall D', NoDup D' ->
              Zsum (map (fun k => count_key eqb k (x :: l)) D')
              = (Zsum (map (fun k => count_key eqb k l) D')
                 + (if existsb (eqb x) D' then 1 else 0))%Z).
    { clear - eqb_eq. induction D' as [|d D' IH']; intros Hnd; [reflexivity|].
      inversion Hnd as [|? ? Hd Hnd']; subst.
      cbn [map Zsum fold_right existsb]. unfold Zsum in IH'. rewrite (IH' Hnd').
      rewrite (@count_key_cons _ eqb d x l).
      destruct (eqb d x) eqn:E1.
      - apply eqb_eq in E1. subst d.
        rewrite (proj2 (eqb_eq x x) eq_refl). cbn [orb].
        replace (existsb (eqb x) D') with false; [lia|].
        symmetry. destruct (existsb (eqb x) D') eqn:E; [|reflexivity].
        apply (@existsb_eqb_In _ _ eqb_eq _ _) in E. contradiction.
      - destruct (eqb x d) eqn:E2.
        + apply eqb_eq in E2. subst d.
          rewrite (proj2 (eqb_eq x x) eq_refl) in E1. discriminate.
        + cbn [orb]. lia. }
    rewrite (Hone D HD), IH.
    rewrite (proj2 (@existsb_eqb_In _ _ eqb_eq x D) Hx).
    cbn [length]. lia.
Qed.

Lemma groupby_size_total (keys : list K) :
  Zsum (map snd (groupby_size eqb ltb keys)) = Z.of_nat (length keys).
Proof.
  unfold groupby_size. rewrite map_map. cbn [snd].
  apply sum_counts.
  - apply (Permutation_NoDup (Permutation_sym (sort_keys_perm _))).
    apply NoDup_distinct.
  - intros x Hx. apply In_sort_keys. now apply In_distinct.
Qed.

Lemma groupby_size_positive (keys : list K) (k : K) (n : Z) :
  In (k, n) (groupby_size eqb ltb keys) -> (1 <= n)%Z.
Proof.
  unfold groupby_size. intros H. apply in_map_iff in H.
  destruct H as (k' & [= <- <-] & Hk).
  apply In_sort_keys, In_distinct in Hk; [|exact eqb_eq].
  unfold count_key. induction keys as [|x keys IH]; [contradiction|].
  simpl. destruct (eqb k' x) eqn:E; [simpl length; lia|].
  destruct Hk as [-> | Hk]; [|now apply IH].
  rewrite (proj2 (eqb_eq k' k') eq_refl) in E. discriminate.
Qed.

Hypothesis ltb_trans : forall a b c, ltb a b = true -> ltb b c = true -> ltb a c = true.
Hypothesis ltb_total : forall a b, ltb a b = false -> a <> b -> ltb b a = true.

Lemma insert_sorted_sorted (k : K) (l : list K) :
  ~ In k l ->
  StronglySorted (fun a b => ltb a b = true) l ->
  StronglySorted (fun a b => ltb a b = true) (insert_sorted ltb k l).
Proof.
  induction l as [|x l IH]; simpl; intros Hk Hs.
  - repeat constructor.
  - apply StronglySorted_inv in Hs. destruct Hs as [Hl Hx].
    destruct (ltb k x) eqn:E.
    + constructor; [now constructor|].
      constructor; [exact E|].
      eapply Forall_impl; [|exact Hx]. intros a Ha. exact (ltb_trans E Ha).
    + constructor; [apply IH; tauto|].
      apply Forall_forall. intros a Ha.
      apply (Permutation_in _ (insert_sorted_perm k l)) in Ha.
      destruct Ha as [<- | Ha].
      * apply ltb_total; [exact E|]. intros ->. apply Hk. now left.
      * exact (proj1 (Forall_forall _ _) Hx a Ha).
Qed.

Lemma sort_keys_sorted (l : list K) :
  NoDup l -> StronglySorted (fun a b => ltb a b = true) (sort_keys ltb l).
Proof.
  induction l as [|k l IH]; simpl; intros Hnd; [constructor|].
  inversion Hnd as [|? ? Hk Hnd']; subst.
  apply insert_sorted_sorted; [|now apply IH].
  intros H. apply In_sort_keys in H. contradiction.
Qed.

End GroupTotals.

Lemma date_ltb_total (a b : date) :
  date_ltb a b = false -> a <> b -> date_ltb b a = true.
Proof.
  intros H Hne. apply date_not_ltb_leb in H. apply date_leb_iff in H.
  destruct H as [H | H]; [exact H | congruence].
Qed.

(** X13. The daily counts are one entry per day of the filtered table, the
    days in the order of the calendar without repetition; every count is at
    least 1, and the counts add up to the number of e-mails. *)
Theorem daily_counts_partition (t : table) :
  StronglySorted (fun a b => date_ltb a b = true) (map fst (daily_counts t)) /\
  (forall d n, In (d, n) (daily_counts t) -> (1 <= n)%Z) /\
  Zsum (map snd (daily_counts t)) = Z.of_nat (length t).
Proof.
  unfold daily_counts. split; [|split].
  - unfold groupby_size. rewrite map_map. cbn [fst]. rewrite map_id.
    apply sort_keys_sorted.
    + exact date_ltb_trans.
    + exact date_ltb_total.
    + apply NoDup_distinct. exact date_eqb_eq.
  - intros d n. apply groupby_size_positive. exact date_eqb_eq.
  - rewrite groupby_size_total; [|exact date_eqb_eq]. now rewrite length_map.
Qed.

Lemma daily_counts_partition_witness : (1 <= 5)%Z.
Proof.
  refine (proj1 (proj2 (daily_counts_partition scenario_counts_df))
            (mkDate 2024 3 1) 5%Z _).
  vm_compute. tauto.
Defined.

Lemma Zsum_app (a b : list Z) : Zsum (a ++ b) = (Zsum a + Zsum b)%Z.
Proof.
  unfold Zsum. induction a as [|x a IH]; simpl; [reflexivity | lia].
Qed.

Lemma Zsum_sq_nonneg (cs : list Z) : (0 <= Zsum (map (fun x => x * x) cs))%Z.
Proof.
  unfold Zsum. induction cs as [|x cs IH]; simpl; [lia | nia].
Qed.

Lemma cauchy_sum (cs : list Z) :
  (Zsum cs * Zsum cs
   <= Z.of_nat (length cs) * Zsum (map (fun x => x * x) cs))%Z.
Proof.
  induction cs as [|x cs IH]; [simpl; lia|].
  pose proof (Zsum_sq_nonneg cs) as Hq.
  cbn [map length]. rewrite Nat2Z.inj_succ.
  change (Zsum (x :: cs)) with (x + Zsum cs)%Z.
  change (Zsum (x * x :: map (fun x => x * x) cs))%Z
    with (x * x + Zsum (map (fun x => x * x) cs))%Z.
  set (s := Zsum cs) in *. set (q := Zsum (map (fun x => x * x)%Z cs)) in *.
  set (n := Z.of_nat (length cs)) in *.
  assert (Hn : (0 <= n)%Z) by (unfold n; lia).
  destruct (Z.eq_dec n 0) as [Hz | Hz].
  - rewrite Hz in *. assert (s = 0)%Z by nia. subst s. nia.
  - assert (H2 : (0 <= n * (q + n * x * x - 2 * s * x))%Z).
    { replace (n * (q + n * x * x - 2 * s * x))%Z
        with ((n * q - s * s) + (s - n * x) * (s - n * x))%Z by ring.
      pose proof (Z.square_nonneg (s - n * x)). lia. }
    assert (H3 : (0 <= q + n * x * x - 2 * s * x)%Z) by nia.
    nia.
Qed.

(** A value of a series lies within [sqrt (n - 1)] sample deviations of the
    mean, in integers. *)
Lemma member_deviation (cs : list Z) (c : Z) :
  In c cs ->
  let n := Z.of_nat (length cs) in
  let S := Zsum cs in
  let Q := Zsum (map (fun x => x * x)%Z cs) in
  ((n * c - S) * (n * c - S) <= (n - 1) * (n * Q - S * S))%Z.
Proof.
  intros Hin. apply in_split in Hin. destruct Hin as (l1 & l2 & ->).
  pose proof (cauchy_sum (l1 ++ l2)) as Hc.
  cbv zeta. rewrite map_app, !Zsum_app, length_app in *.
  cbn [map length]. rewrite Nat.add_succ_r, Nat2Z.inj_succ, <- length_app.
  change (Zsum (c :: l2)) with (c + Zsum l2)%Z.
  change (Zsum (c * c :: map (fun x => x * x) l2))%Z
    with (c * c + Zsum (map (fun x => x * x) l2))%Z.
  rewrite length_app in *.
  set (s := (Zsum l1 + Zsum l2)%Z) in *.
  set (q := (Zsum (map (fun x => x * x) l1) + Zsum (map (fun x => x * x) l2))%Z) in *.
  set (n := Z.of_nat (length l1 + length l2)) in *.
  assert (Hn : (0 <= n)%Z) by (unfold n; lia).
  replace (Zsum l1 + (c + Zsum l2))%Z with (c + s)%Z by (unfold s; ring).
  replace (Zsum (map (fun x => x * x) l1) + (c * c + Zsum (map (fun x => x * x) l2)))%Z
    with (c * c + q)%Z by (unfold q; ring).
  assert (E : ((Z.succ n - 1) * (Z.succ n * (c * c + q) - (c + s) * (c + s))
               - (Z.succ n * c - (c + s)) * (Z.succ n * c - (c + s))
               = Z.succ n * (n * q - s * s))%Z) by ring.
  assert (0 <= Z.succ n * (n * q - s * s))%Z by nia.
  lia.
Qed.

Lemma burst_test_six (cs : list Z) (c : Z) :
  In c cs ->
  burst_test (Z.of_nat (length cs)) (Zsum cs) (Zsum (map (fun x => x * x)%Z cs)) c
  = true ->
  (6 <= length cs)%nat.
Proof.
  intros Hin H. pose proof (member_deviation cs c Hin) as Hd.
  pose proof (cauchy_sum cs) as Hc. cbv zeta in Hd.
  unfold burst_test in H. rewrite !andb_true_iff, !Z.ltb_lt in H.
  destruct H as [[Hn Hs] Hb].
  set (n := Z.of_nat (length cs)) in *.
  set (A := ((n * c - Zsum cs) * (n * c - Zsum cs))%Z) in *.
  set (D := (n * Zsum (map (fun x => x * x) cs) - Zsum cs * Zsum cs)%Z) in *.
  assert (HD : (0 <= D)%Z) by (unfold D; lia).
  destruct (Nat.lt_ge_cases (length cs) 6) as [Hlt | Hge]; [exfalso | exact Hge].
  assert (Hcases : (n = 2 \/ n = 3 \/ n = 4 \/ n = 5)%Z) by (unfold n in *; lia).
  clearbody A D. destruct Hcases as [-> | [-> | [-> | ->]]]; lia.
Qed.

Lemma filter_none (A : Type) (f : A -> bool) (l : list A) :
  (forall x, In x l -> f x = false) -> filter f l = [].
Proof.
  induction l as [|x l IH]; simpl; intros H; [reflexivity|].
  rewrite (H x (or_introl eq_refl)). apply IH. auto.
Qed.

(** X14. Burst detection needs six days: a filtered table with e-mails on
    fewer than six distinct days has no burst day, whatever the counts are,
    because no value of a series of at most five lies more than two sample
    standard deviations above its mean.  Six days are enough. *)
Theorem burst_needs_six_days (t : table) :
  ((length (daily_counts t) < 6)%nat -> burst_days t = []) /\
  exists daily, length daily = 6%nat /\ bursts_of daily <> [].
Proof.
  split.
  - intros Hlen. unfold burst_days. rewrite bursts_exact_correct.
    unfold bursts_exact. apply filter_none. intros dc Hdc.
    destruct (burst_test _ _ _ (snd dc)) eqn:E; [|reflexivity].
    apply burst_test_six in E.
    + rewrite length_map in E. lia.
    + now apply in_map.
  - exists [(mkDate 2024 3 1, 1%Z); (mkDate 2024 3 2, 1%Z); (mkDate 2024 3 3, 1%Z);
            (mkDate 2024 3 4, 1%Z); (mkDate 2024 3 5, 1%Z); (mkDate 2024 3 6, 100%Z)].
    split; [reflexivity|]. rewrite bursts_exact_correct. vm_compute. discriminate.
Qed.

Lemma burst_needs_six_days_witness : burst_days scenario_counts_df = [].
Proof.
  apply (proj1 (burst_needs_six_days scenario_counts_df)).
  vm_compute. lia.
Defined.

(** ** More on the insight summary *)

Lemma flt_false_NaN (b : f64) : flt NaN b = false.
Proof. reflexivity. Qed.

Lemma flt_asym (a : f64) (x y : R) :
  (x <= y)%R -> flt a (Fin x) = true -> flt (Fin y) a = false.
Proof.
  destruct a as [|v]; [discriminate|]. rewrite flt_Fin. intros Hxy Hv.
  destruct (flt (Fin y) (Fin v)) eqn:E; [|reflexivity].
  apply flt_Fin in E. lra.
Qed.

(** X15. The notes under the anomaly heading are the conditions that hold,
    each listed once and in the order bursts, politeness, sentiment: the
    heading is shown exactly when there is a note; the note on bursts is
    there exactly when there are burst days, the note on politeness exactly
    when the ratio is below 0.2, and the note on sentiment exactly when the
    sentiment section reports a negative leaning; a table reported as highly
    polite never gets the low-politeness note. *)
Theorem anomaly_notes_listed (t : table) (Polarity : list R) :
  let s := insight_summary t Polarity in
  (anomaly s = true <-> anomaly_notes s <> []) /\
  (In EmailBursts (anomaly_notes s) <-> insight_bursts s <> []) /\
  (In LowPoliteness (anomaly_notes s) <->
   flt (polite_ratio s) (Fin (2 / 10)) = true) /\
  (In NegativeSentiment (anomaly_notes s) <-> sentiment_dynamics s = LeansNegative) /\
  (high_politeness s = true -> ~ In LowPoliteness (anomaly_notes s)) /\
  NoDup (anomaly_notes s).
Proof.
  intros s. unfold s, insight_summary.
  cbn [anomaly anomaly_notes insight_bursts polite_ratio sentiment_dynamics
       high_politeness].
  set (b := match burst_days t with [] => true | _ :: _ => false end).
  assert (Hb : negb b = true <-> burst_days t <> []).
  { unfold b. destruct (burst_days t); simpl; split; congruence. }
  set (lo := flt (polite_ratio_of t) (Fin (2 / 10))).
  set (avg := Series_mean Polarity).
  assert (Hpos : flt (Fin (1 / 10)) avg = true -> flt avg (Fin (- (1 / 10))) = false).
  { intros H. destruct (flt avg (Fin (- (1 / 10)))) eqn:E; [|reflexivity].
    rewrite (@flt_asym avg (- (1 / 10)) (1 / 10)) in H; [discriminate | lra | exact E]. }
  assert (Hhi : flt (Fin (4 / 10)) (polite_ratio_of t) = true -> lo = false).
  { intros H. unfold lo. destruct (flt (polite_ratio_of t) (Fin (2 / 10))) eqn:E;
      [|reflexivity].
    rewrite (@flt_asym (polite_ratio_of t) (2 / 10) (4 / 10)) in H;
      [discriminate | lra | exact E]. }
  rewrite <- Hb.
  destruct (negb b), lo eqn:Elo, (flt avg (Fin (- (1 / 10)))) eqn:Eneg;
    destruct (flt (Fin (1 / 10)) avg) eqn:Epos;
    try (specialize (Hpos eq_refl); discriminate Hpos);
    cbn [orb app];
    repeat split; try (intros; discriminate); try tauto;
    try (intros [H | H]; try discriminate H; tauto);
    try (intros H; simpl in H; intuition discriminate);
    try (intros H; specialize (Hhi H); discriminate Hhi);
    try (simpl; intuition discriminate);
    try (repeat constructor; simpl; intuition discriminate).
Qed.

Lemma polite_count_le (t : table) : (polite_count t <= length t)%nat.
Proof. unfold polite_count. apply filter_length_le. Qed.

Lemma anomaly_notes_listed_witness :
  ~ In LowPoliteness (anomaly_notes (insight_summary scenario_df [0%R])).
Proof.
  apply (proj1 (proj2 (proj2 (proj2 (proj2
           (anomaly_notes_listed scenario_df [0%R])))))).
  cbn [high_politeness insight_summary]. unfold polite_ratio_of.
  replace (polite_count scenario_df) with 1%nat by (vm_compute; reflexivity).
  replace (length scenario_df) with 1%nat by (vm_compute; reflexivity).
  cbn [Nat.ltb Nat.leb INR]. apply flt_Fin. lra.
Defined.

(** X16. The politeness ratio is a number from 0 to 1, and it is 0 on the
    empty table: the division of line 427 is guarded. *)
Theorem polite_ratio_bounds (t : table) :
  exists x, polite_ratio_of t = Fin x /\ (0 <= x <= 1)%R /\ (t = [] -> x = 0%R).
Proof.
  unfold polite_ratio_of. destruct t as [|r t].
  - exists 0%R. split; [reflexivity|]. split; [lra | reflexivity].
  - set (l := r :: t).
    assert (Hlen : (0 < length l)%nat) by (simpl; lia).
    replace (0 <? length l)%nat with true by (symmetry; now apply Nat.ltb_lt).
    exists (INR (polite_count l) / INR (length l))%R.
    split; [reflexivity|]. split; [|discriminate].
    pose proof (polite_count_le l) as Hle.
    apply le_INR in Hle. apply lt_INR in Hlen. change (INR 0) with 0%R in Hlen.
    clearbody l.
    pose proof (pos_INR (polite_count l)) as Hp.
    split.
    + apply Rmult_le_pos; [exact Hp|]. left. now apply Rinv_0_lt_compat.
    + apply (Rmult_le_reg_r (INR (length l))); [exact Hlen|].
      unfold Rdiv. rewrite Rmult_assoc, Rinv_l; lra.
Qed.

Lemma polite_ratio_bounds_witness :
  exists x, polite_ratio_of [] = Fin x /\ x = 0%R.
Proof.
  destruct (polite_ratio_bounds []) as (x & Hx & _ & H0).
  exists x. split; [exact Hx | exact (H0 eq_refl)].
Defined.

(** ** More on the date range *)

Lemma min_date_attained (t : table) (lo : date) :
  min_date t = Some lo -> exists r, In r t /\ DateOnly r = lo.
Proof.
  revert lo. induction t as [|r0 t IH]; simpl; intros lo H; [discriminate|].
  destruct (min_date t) as [m|] eqn:Hm.
  - injection H as <-. destruct (date_ltb (DateOnly r0) m).
    + exists r0. auto.
    + destruct (IH m eq_refl) as (r & Hr & E). exists r. auto.
  - injection H as <-. exists r0. auto.
Qed.

Lemma max_date_attained (t : table) (hi : date) :
  max_date t = Some hi -> exists r, In r t /\ DateOnly r = hi.
Proof.
  revert hi. induction t as [|r0 t IH]; simpl; intros hi H; [discriminate|].
  destruct (max_date t) as [m|] eqn:Hm.
  - injection H as <-. destruct (date_ltb m (DateOnly r0)).
    + exists r0. auto.
    + destruct (IH m eq_refl) as (r & Hr & E). exists r. auto.
  - injection H as <-. exists r0. auto.
Qed.

(** X17. The metric "Date Range" is "N/A" exactly on the empty table;
    otherwise its two ends are the days of two e-mails of the table, the
    first end is not after the second, and the day of every e-mail lies
    between them. *)
Theorem date_range_brackets (t : table) :
  (metric_date_range t = None <-> t = []) /\
  forall lo hi, metric_date_range t = Some (lo, hi) ->
    (exists r, In r t /\ DateOnly r = lo) /\
    (exists r, In r t /\ DateOnly r = hi) /\
    date_leb lo hi = true /\
    forall r, In r t ->
      date_leb lo (DateOnly r) = true /\ date_leb (DateOnly r) hi = true.
Proof.
  unfold metric_date_range. split.
  - destruct t as [|r t]; [tauto|]. cbn [is_empty].
    destruct (min_date (r :: t)) eqn:E1; [|apply min_date_none in E1; discriminate].
    destruct (max_date (r :: t)) eqn:E2; [|apply max_date_none in E2; discriminate].
    split; discriminate.
  - intros lo hi H. destruct t as [|r0 t]; [discriminate|]. cbn [is_empty] in H.
    destruct (min_date (r0 :: t)) as [lo'|] eqn:E1; [|discriminate].
    destruct (max_date (r0 :: t)) as [hi'|] eqn:E2; [|discriminate].
    injection H as -> ->.
    pose proof (min_date_lower _ E1) as Hlo.
    pose proof (max_date_upper _ E2) as Hhi.
    destruct (min_date_attained _ E1) as (r1 & Hr1 & El).
    split; [now exists r1|]. split; [now apply max_date_attained|].
    split; [|intros r Hr; split; auto].
    rewrite <- El. now apply Hhi.
Qed.

Lemma date_range_brackets_witness :
  date_leb (mkDate 2024 3 1) (mkDate 2024 3 5) = true.
Proof.
  refine (proj1 (proj2 (proj2 (proj2 (date_range_brackets sample_df)
            (mkDate 2024 3 1) (mkDate 2024 3 5) _)))).
  vm_compute. reflexivity.
Defined.

(** ** More on the keyword *)

Lemma lower_lower (c : ascii) : lower (lower c) = lower c.
Proof. destruct c as [[] [] [] [] [] [] [] []]; reflexivity. Qed.

Lemma prefix_ci_lower (k s : str) : prefix_ci (str_lower k) s = prefix_ci k s.
Proof.
  revert s. induction k as [|a k IH]; intros [|c s]; simpl; try reflexivity.
  now rewrite lower_lower, IH.
Qed.

Lemma contains_ci_lower (k s : str) : contains_ci (str_lower k) s = contains_ci k s.
Proof.
  induction s as [|c s IH]; simpl; rewrite prefix_ci_lower; [reflexivity|].
  now rewrite IH.
Qed.

Lemma prefix_ci_text_lower (k s : str) : prefix_ci k (str_lower s) = prefix_ci k s.
Proof.
  revert s. induction k as [|a k IH]; intros [|c s]; simpl; try reflexivity.
  now rewrite lower_lower, IH.
Qed.

Lemma contains_ci_text_lower (k s : str) :
  contains_ci k (str_lower s) = contains_ci k s.
Proof.
  induction s as [|c s IH]; [reflexivity|].
  change (str_lower (c :: s)) with (lower c :: str_lower s).
  cbn [contains_ci].
  change (lower c :: str_lower s) with (str_lower (c :: s)).
  now rewrite prefix_ci_text_lower, IH.
Qed.

(** X18. A keyword that holds none of the characters
    [. ^ $ * + ? { } [ ] \ | ( )] compiles, and its pattern matches a row
    exactly when the keyword stands in the subject or in the body as it is
    written, the case of the letters apart on both sides: two keywords that
    differ in case only select the same rows, and so do they on a row whose
    subject and body are put in lower case. *)
Theorem keyword_literal_search (k : str) :
  forallb (fun c => negb (is_meta c)) k = true ->
  exists pat, re_compile k = Some pat /\
    forall r, keyword_mask pat r = keyword_spec k r /\
      (forall k', str_lower k' = str_lower k -> keyword_spec k' r = keyword_spec k r) /\
      (forall su bo, Subject r = Some su -> Body r = Some bo ->
         keyword_spec k r = contains_ci k (str_lower su) || contains_ci k (str_lower bo)).
Proof.
  intros Hlit. exists (map Lit k). split; [now apply re_compile_literal|].
  intros r. split; [|split].
  - unfold keyword_mask, keyword_spec, str_contains, cell_has.
    destruct (Subject r), (Body r); rewrite ?re_search_literal; reflexivity.
  - intros k' Hk. unfold keyword_spec, cell_has.
    destruct (Subject r), (Body r);
      rewrite <- ?(contains_ci_lower k'), <- ?(contains_ci_lower k), ?Hk; reflexivity.
  - intros su bo Hs Hb. unfold keyword_spec, cell_has. rewrite Hs, Hb.
    now rewrite !contains_ci_text_lower.
Qed.

Lemma keyword_literal_search_witness :
  exists pat, re_compile (lit "INVOICE") = Some pat /\
    forall r, keyword_mask pat r = keyword_spec (lit "INVOICE") r.
Proof.
  destruct (@keyword_literal_search (lit "INVOICE") eq_refl) as (pat & Hp & H).
  exists pat. split; [exact Hp|]. intros r. exact (proj1 (H r)).
Defined.

(** ** The installer *)

Lemma install_cases (w : World) (p : string) :
  install w p
  = match check_call w p with
    | None => ([Pip p; Print (SuccessfullyInstalled p)], Done tt)
    | Some CalledProcessError =>
        ([Pip p; Print (FailedToInstall p)], Raised CalledProcessError)
    | Some e => ([Pip p], Raised e)
    end.
Proof.
  unfold install, call. destruct (check_call w p) as [[]|]; reflexivity.
Qed.

(** The events of one guarded installation. *)
Lemma guarded_install (w : World) (p : string) (m : message) :
  try_except (install w p) any_exception (emit (Print m))
  = (match check_call w p with
     | None => [Pip p; Print (SuccessfullyInstalled p)]
     | Some CalledProcessError => [Pip p; Print (FailedToInstall p); Print m]
     | Some _ => [Pip p; Print m]
     end, Done tt).
Proof.
  rewrite install_cases. destruct (check_call w p) as [[]|]; reflexivity.
Qed.

Lemma for_each_guarded (w : World) (ps : list string) :
  for_each ps (fun package =>
     try_except (install w package) any_exception
       (emit (Print (CouldNotInstall package))))
  = (flat_map (fun p => fst (try_except (install w p) any_exception
                               (emit (Print (CouldNotInstall p))))) ps,
     Done tt).
Proof.
  induction ps as [|p ps IH]; [reflexivity|].
  cbn [for_each flat_map]. rewrite IH, guarded_install. reflexivity.
Qed.

Lemma corpora_block (w : World) :
  exists ev,
    try_except
      (attempt (import_textblob w) ;;;
       call DownloadCorpora (download_all w) ;;;
       emit (Print CorporaDownloaded))
      any_exception
      (emit (Print CorporaError)) = (ev, Done tt) /\
    pip_calls ev = [] /\ ~ In StanzaDownload ev /\ ~ In (Print StanzaReady) ev
    /\ forall p, ~ In (Print (CouldNotInstall p)) ev
                 /\ ~ In (Print (SuccessfullyInstalled p)) ev.
Proof.
  destruct (import_textblob w) as [e1|], (download_all w) as [e2|];
    eexists; (split; [reflexivity|]); cbn;
    repeat split; intuition discriminate.
Qed.

Lemma stanza_block (w : World) :
  try_except
    (attempt (import_stanza w) ;;;
     attempt (global_name "os") ;;;
     (if negb (model_exists w)
      then call StanzaDownload (stanza_download w)
      else emit (Print StanzaExists)) ;;;
     emit (Print StanzaReady))
    any_exception
    (emit (Print StanzaError)) = ([Print StanzaError], Done tt).
Proof. destruct (import_stanza w) as [e1|]; reflexivity. Qed.

Lemma main_events (w : World) :
  exists corpora,
    main w
    = ([Print Starting]
       ++ fst (try_except (install w "numpy") any_exception (emit (Print NumpyFailed)))
       ++ flat_map (fun p => fst (try_except (install w p) any_exception
                                    (emit (Print (CouldNotInstall p))))) packages
       ++ [Print AttemptCorpora] ++ corpora
       ++ [Print AttemptStanza] ++ [Print StanzaError]
       ++ final_events w,
       Done tt) /\
    pip_calls corpora = [] /\ ~ In StanzaDownload corpora
    /\ ~ In (Print StanzaReady) corpora
    /\ forall p, ~ In (Print (CouldNotInstall p)) corpora
                 /\ ~ In (Print (SuccessfullyInstalled p)) corpora.
Proof.
  destruct (corpora_block w) as (corpora & Hc & Hp).
  exists corpora. split; [|exact Hp].
  unfold main. rewrite Hc, stanza_block, for_each_guarded, guarded_install.
  reflexivity.
Qed.

Lemma pip_calls_app (a b : list event) :
  pip_calls (a ++ b) = pip_calls a ++ pip_calls b.
Proof.
  induction a as [|e a IH]; [reflexivity|].
  destruct e; simpl; now rewrite IH.
Qed.

Lemma pip_calls_guarded (w : World) (p : string) (m : message) :
  pip_calls (fst (try_except (install w p) any_exception (emit (Print m)))) = [p].
Proof.
  rewrite guarded_install. destruct (check_call w p) as [[]|]; reflexivity.
Qed.

Lemma pip_calls_loop (w : World) (ps : list string) :
  pip_calls (flat_map (fun p => fst (try_except (install w p) any_exception
                                       (emit (Print (CouldNotInstall p))))) ps)
  = ps.
Proof.
  induction ps as [|p ps IH]; [reflexivity|].
  cbn [flat_map]. rewrite pip_calls_app, pip_calls_guarded, IH. reflexivity.
Qed.

(** X22. The installer never ends on an exception, whatever fails: every
    failure is caught, and the run ends with the three lines that say that
    all installation attempts are complete and how to start the dashboard. *)
Theorem main_always_completes (w : World) :
  snd (main w) = Done tt /\
  exists ev, fst (main w) = Print Starting :: ev ++ final_events w.
Proof.
  destruct (main_events w) as (corpora & -> & _). split; [reflexivity|].
  cbn [fst].
  exists (fst (try_except (install w "numpy") any_exception (emit (Print NumpyFailed)))
          ++ flat_map (fun p => fst (try_except (install w p) any_exception
                                       (emit (Print (CouldNotInstall p))))) packages
          ++ [Print AttemptCorpora] ++ corpora
          ++ [Print AttemptStanza] ++ [Print StanzaError]).
  rewrite <- !app_assoc. reflexivity.
Qed.

(** X23. Pip is called once for each of the twelve packages, numpy first and
    then the others in the order of the list, whether or not earlier
    installations failed. *)
Theorem main_installs_every_package (w : World) :
  pip_calls (fst (main w)) = "numpy"%string :: packages.
Proof.
  destruct (main_events w) as (corpora & -> & Hc & _). cbn [fst].
  rewrite !pip_calls_app, pip_calls_guarded, pip_calls_loop, Hc.
  reflexivity.
Qed.

(** X24. The installer never downloads the Stanza model and never reports it
    ready; it always prints the error message of that step.  The step reads
    the name [os], which the module does not import, so that [NameError] is
    raised inside the [try] as soon as [import stanza] has passed. *)
Theorem main_never_readies_stanza (w : World) :
  ~ In StanzaDownload (fst (main w)) /\
  ~ In (Print StanzaReady) (fst (main w)) /\
  In (Print StanzaError) (fst (main w)).
Proof.
  destruct (main_events w) as (corpora & -> & _ & Hd & Hr & _). cbn [fst].
  assert (Hg : forall p m x, m <> StanzaReady ->
               In x (fst (try_except (install w p) any_exception
                            (emit (Print m)))) ->
               x <> StanzaDownload /\ x <> Print StanzaReady).
  { intros p m x Hm. rewrite guarded_install.
    destruct (check_call w p) as [[]|]; intros H; split; intros ->; cbn in H;
      repeat (destruct H as [H | H]; try discriminate H); try contradiction;
      injection H as ->; now apply Hm. }
  assert (Hl : forall x, In x (flat_map (fun p => fst (try_except (install w p)
                 any_exception (emit (Print (CouldNotInstall p))))) packages) ->
               x <> StanzaDownload /\ x <> Print StanzaReady).
  { intros x Hx. apply in_flat_map in Hx. destruct Hx as (p & _ & Hx).
    apply Hg in Hx; [exact Hx | discriminate]. }
  repeat split.
  - rewrite !in_app_iff. unfold final_events. cbn [In].
    intros [H | [H | [H | [H | [H | [H | [H | H]]]]]]];
      try (intuition discriminate).
    + apply Hg in H; [tauto | discriminate].
    + apply Hl in H. tauto.
  - rewrite !in_app_iff. unfold final_events. cbn [In].
    intros [H | [H | [H | [H | [H | [H | [H | H]]]]]]];
      try (intuition discriminate).
    + apply Hg in H; [tauto | discriminate].
    + apply Hl in H. tauto.
  - rewrite !in_app_iff. cbn [In]. tauto.
Qed.

(** X25. The installer reports each package truthfully: "Successfully
    installed" is printed for a package exactly when its pip call returned,
    and for the packages of the list "Could not install" is printed exactly
    when the call raised; [install] itself ends normally only in the first
    case. *)
Theorem main_reports_each_package (w : World) (p : string) :
  In p ("numpy"%string :: packages) ->
  (snd (install w p) = Done tt <-> check_call w p = None) /\
  (In (Print (SuccessfullyInstalled p)) (fst (main w)) <-> check_call w p = None) /\
  (In p packages ->
   (In (Print (CouldNotInstall p)) (fst (main w)) <-> check_call w p <> None)).
Proof.
  intros Hp. split; [|split].
  - rewrite install_cases. destruct (check_call w p) as [[]|]; split;
      try discriminate; reflexivity.
  - destruct (main_events w) as (corpora & -> & _ & _ & _ & Hc). cbn [fst].
    assert (Hg : forall q m, In (Print (SuccessfullyInstalled p))
                   (fst (try_except (install w q) any_exception (emit (Print m))))
                 -> m <> SuccessfullyInstalled p -> q = p /\ check_call w p = None).
    { intros q m. rewrite guarded_install.
      destruct (check_call w q) as [[]|] eqn:E; cbn;
        intros H Hm; repeat (destruct H as [H | H]; try discriminate H);
        try contradiction; injection H as H;
        first [ now elim Hm | subst q; split; [reflexivity | exact E] ]. }
    split.
    + rewrite !in_app_iff. unfold final_events. cbn [In].
      intros [H | [H | [H | [H | [H | [H | [H | H]]]]]]];
        try (intuition discriminate).
      * apply Hg in H; [tauto | discriminate].
      * apply in_flat_map in H. destruct H as (q & _ & H).
        apply Hg in H; [tauto | discriminate].
      * exfalso. exact (proj2 (Hc p) H).
    + intros Hnone. rewrite !in_app_iff.
      destruct Hp as [<- | Hp].
      * right. left. rewrite guarded_install, Hnone. cbn. tauto.
      * right. right. left. apply in_flat_map. exists p. split; [exact Hp|].
        rewrite guarded_install, Hnone. cbn. tauto.
  - intros Hin. destruct (main_events w) as (corpora & -> & _ & _ & _ & Hc).
    cbn [fst]. split.
    + rewrite !in_app_iff. unfold final_events. cbn [In].
      intros [H | [H | [H | [H | [H | [H | [H | H]]]]]]];
        try (intuition discriminate).
      * rewrite guarded_install in H.
        destruct (check_call w "numpy") as [[]|]; cbn in H;
          intuition discriminate.
      * apply in_flat_map in H. destruct H as (q & _ & H).
        rewrite guarded_install in H.
        destruct (check_call w q) as [[]|] eqn:E; cbn in H;
          repeat (destruct H as [H | H]; try discriminate H);
          try contradiction; injection H as ->; congruence.
      * exfalso. exact (proj1 (Hc p) H).
    + intros Hfail. rewrite !in_app_iff. right. right. left.
      apply in_flat_map. exists p. split; [exact Hin|].
      rewrite guarded_install.
      destruct (check_call w p) as [[]|]; cbn; tauto.
Qed.

Lemma main_reports_each_package_witness :
  In (Print (CouldNotInstall "pandas")) (fst (main offline_world)).
Proof.
  assert (Hp : In "pandas"%string ("numpy"%string :: packages))
    by (right; right; left; reflexivity).
  assert (Hq : In "pandas"%string packages) by (right; left; reflexivity).
  apply (proj2 (proj2 (main_reports_each_package offline_world Hp)) Hq).
  discriminate.
Defined.

(** ** The run of the dashboard *)

Lemma length_dropna (xs : list cell) : (length (dropna xs) <= length xs)%nat.
Proof.
  induction xs as [|[s|] xs IH]; simpl; lia.
Qed.

Lemma length_distinct (K : Type) (eqb : K -> K -> bool) (l : list K) :
  (length (distinct eqb l) <= length l)%nat.
Proof.
  induction l as [|k l IH]; simpl; [lia|].
  destruct (existsb (eqb k) l); simpl; lia.
Qed.



(** X20. The heat map in full: its rows are labelled Monday to Sunday; the
    row of a weekday that occurs in the table holds, for every hour that
    occurs, the number of e-mails of that weekday and hour, 0 when there is
    none; the row of a weekday that does not occur holds missing values. *)
Theorem heatmap_rows_and_cells (t : table) :
  let keys := map (fun r => (Weekday r, Hour r)) t in
  index (heatmap_data t) = WEEKDAYS /\
  values (heatmap_data t)
  = map (fun w =>
           if existsb (str_eqb w) (map Weekday t)
           then map (fun h => Some (count_key wh_eqb (w, h) keys))
                  (columns (heatmap_data t))
           else map (fun _ => None) (columns (heatmap_data t)))
      WEEKDAYS.
Proof. apply heatmap_data_rows. Qed.

Lemma clean_body_stripped_witness : is_space "P"%char = false.
Proof.
  exact (proj1 (clean_body_stripped (lit "Please review. Kind regards, A")
                  BODY_CLEANUP_KEYWORDS)
           "P"%char (lit "lease review.") eq_refl).
Defined.
